(** * STGen custom UDP latency probe: client and server

    A shallow embedding of [protocols/custom_udp/custom_udp_client.c] and
    [protocols/custom_udp/custom_udp_server.c].

    Both programs overlay the header struct [stgen_hdr_t] on a raw byte
    buffer and hand that buffer to [sendto] / read it after [recvfrom].
    The embedding therefore keeps buffers as byte lists and makes the two
    things the C implementation decides explicit: the byte order of the
    host and the padding of the struct.  The client and the server are two
    processes and each has its own [abi].

    Integers are [Z] with the wrap-around of their C type written out. *)

From Stdlib Require Import ZArith List Lia String Ascii Bool DecimalString.
From coqutil Require Import Byte Word.LittleEndianList.
Import ListNotations.
Local Open Scope Z_scope.

(** ** C integer types *)

Definition u32 (z : Z) : Z := z mod 2 ^ 32.
Definition u64 (z : Z) : Z := z mod 2 ^ 64.

(** Conversion of an unsigned 64-bit value to [int64_t] (two's complement). *)
Definition to_int64 (z : Z) : Z :=
  let w := u64 z in if w <? 2 ^ 63 then w else w - 2 ^ 64.

(** Conversion of an [int] to [size_t], as the usual arithmetic conversions
    do when an [int] meets [sizeof] in a comparison.  The server prints an
    [int64_t] with [%ld], so [long] and [size_t] are 64 bits wide. *)
Definition to_size_t (n : Z) : Z := n mod 2 ^ 64.

(** ** Platform ABI *)

Inductive endianness : Set := LittleEndian | BigEndian.

(** [Packed]: the fields follow each other (a packed struct, or a target
    that aligns 64-bit integers to 4 bytes).  [Aligned]: [send_time_us] is
    aligned to 8 bytes, with 4 bytes of padding after [seq]. *)
Inductive layout : Set := Packed | Aligned.

Record abi : Set := { byte_order : endianness; hdr_layout : layout }.

Definition endianness_eqb (x y : endianness) : bool :=
  match x, y with
  | LittleEndian, LittleEndian | BigEndian, BigEndian => true
  | _, _ => false
  end.

Definition layout_eqb (x y : layout) : bool :=
  match x, y with
  | Packed, Packed | Aligned, Aligned => true
  | _, _ => false
  end.

(** ** Raw memory *)

Definition to_bytes (e : endianness) (n : nat) (v : Z) : list byte :=
  match e with
  | LittleEndian => le_split n v
  | BigEndian => rev (le_split n v)
  end.

Definition of_bytes (e : endianness) (bs : list byte) : Z :=
  match e with
  | LittleEndian => le_combine bs
  | BigEndian => le_combine (rev bs)
  end.

(** Read an [n]-byte unsigned integer at byte offset [off]. *)
Definition load (e : endianness) (n off : nat) (mem : list byte) : Z :=
  of_bytes e (firstn n (skipn off mem)).

(** Write an [n]-byte integer at byte offset [off]; the value is truncated
    to [n] bytes, which is the wrap-around of the unsigned type. *)
Definition store (e : endianness) (n off : nat) (v : Z) (mem : list byte)
  : list byte :=
  firstn off mem ++ to_bytes e n v ++ skipn (off + n) mem.

(** ** The header [stgen_hdr_t] *)

Module Wire.

(** Modelled from the spec: [stgen_compat.h], which declares
    [stgen_hdr_t] and [now_us], is not part of the sources.  The spec
    gives the header as [{sequence: uint32, send_time_us: uint64}], fields
    in this order, and [now_us] as returning a count of microseconds (the
    server stores it in a [uint64_t]). *)
Definition seq_size : nat := 4.
Definition send_time_size : nat := 8.

Definition seq_off : nat := 0.

Definition send_time_off (a : abi) : nat :=
  match hdr_layout a with Packed => 4 | Aligned => 8 end.

(** [sizeof(stgen_hdr_t)] *)
Definition sizeof_hdr (a : abi) : nat :=
  match hdr_layout a with Packed => 12 | Aligned => 16 end.

(** [hdr->seq] and [hdr->send_time_us] as rvalues *)
Definition get_seq (a : abi) (mem : list byte) : Z :=
  load (byte_order a) seq_size seq_off mem.

Definition get_send_time_us (a : abi) (mem : list byte) : Z :=
  load (byte_order a) send_time_size (send_time_off a) mem.

(** [hdr->seq = v] and [hdr->send_time_us = v] *)
Definition set_seq (a : abi) (v : Z) (mem : list byte) : list byte :=
  store (byte_order a) seq_size seq_off v mem.

Definition set_send_time_us (a : abi) (v : Z) (mem : list byte) : list byte :=
  store (byte_order a) send_time_size (send_time_off a) v mem.

(** The payload that follows the header in every datagram the client
    sends. *)
Definition payload_size : nat := 100.

Definition datagram_size (a : abi) : nat := (sizeof_hdr a + payload_size)%nat.

(** The header fields in network byte order (most significant byte first),
    as the spec's wire-protocol paragraph words it.  Used only to compare
    with what the client puts on the wire. *)
Definition network_order_seq (s : Z) : list byte := to_bytes BigEndian seq_size s.

Definition network_order_send_time (t : Z) : list byte :=
  to_bytes BigEndian send_time_size t.

(** The bytes a datagram carries in the two header fields. *)
Definition seq_bytes (mem : list byte) : list byte :=
  firstn seq_size (skipn seq_off mem).

Definition send_time_bytes (a : abi) (mem : list byte) : list byte :=
  firstn send_time_size (skipn (send_time_off a) mem).

End Wire.

(** ** Process status and text output *)

Inductive status : Set :=
| Running
| Exited (code : Z).

Definition newline : string := String (ascii_of_nat 10) EmptyString.

(** [%u] and [%ld] of a value already in the range of its type. *)
Definition decimal (z : Z) : string := NilZero.string_of_int (Z.to_int z).

(** [argv[0]]; glibc prints a null [%s] argument as [(null)]. *)
Definition argv0 (argv : list string) : string := nth 0 argv "(null)"%string.

(** [perror(s)], with [msg] the text of the current [errno]. *)
Definition perror (s msg : string) : string :=
  (s ++ ": " ++ msg ++ newline)%string.

Fixpoint count_newlines (s : string) : nat :=
  match s with
  | EmptyString => 0%nat
  | String c r =>
      ((if Ascii.eqb c (ascii_of_nat 10) then 1 else 0) + count_newlines r)%nat
  end.

(** ** The probe client, [custom_udp_client.c] *)

Module Client.

(** What the environment decides at startup: the command line and the
    contents of the block [malloc] returns.  [malloc] is taken to succeed;
    the source does not check its result. *)
Record startup : Type := {
  argv : list string;
  heap : list byte
}.

Record proc : Type := {
  st : status;
  run : Z;                      (* the global [int run] *)
  hdr : list byte;              (* the block [hdr] points to *)
  sent : list (list byte);      (* datagrams handed to [sendto], oldest first *)
  slept : list Z;               (* arguments of [usleep], oldest first *)
  err : string;                 (* standard error *)
  hdr_freed : bool;             (* [free(hdr)] was called *)
  sock_closed : bool            (* [close(sockfd)] was called *)
}.

Definition usage (argv : list string) : string :=
  ("Usage: " ++ argv0 argv ++ " <ip> <port> <id>" ++ newline)%string.

(** [main] up to the loop (lines 14-35): the check of [argc], then the
    socket, the destination address and the signal handlers, which leave no
    trace in [proc], then [malloc] and [hdr->seq = 0]. *)
Definition start (a : abi) (e : startup) : proc :=
  if Z.of_nat (List.length (argv e)) <? 4 then
    {| st := Exited 1; run := 1; hdr := []; sent := []; slept := [];
       err := usage (argv e); hdr_freed := false; sock_closed := false |}
  else
    {| st := Running; run := 1; hdr := Wire.set_seq a 0 (heap e);
       sent := []; slept := []; err := EmptyString;
       hdr_freed := false; sock_closed := false |}.

(** What happens to the process from the loop on, when both handlers are
    installed.  [Signal]: SIGINT or SIGTERM is delivered and [handle_sig]
    runs.  [Iterate clock]: the loop
    condition is evaluated and, if it holds, the body runs; [clock] is what
    [now_us] returns in the body.  A signal delivered inside the body has
    the effect of one delivered right after it, because [run] is read by
    the loop condition only. *)
Inductive event : Type :=
| Signal
| Iterate (clock : Z).

Definition handle_sig (p : proc) : proc :=
  {| st := st p; run := 0; hdr := hdr p; sent := sent p; slept := slept p;
     err := err p; hdr_freed := hdr_freed p; sock_closed := sock_closed p |}.

(** The loop body (lines 38-43): [hdr->seq++], [hdr->send_time_us =
    now_us()], [sendto] of [sizeof(stgen_hdr_t) + 100] bytes starting at
    [hdr], [usleep(100000)].  The value [sendto] returns is not looked at. *)
Definition body (a : abi) (clock : Z) (p : proc) : proc :=
  let h1 := Wire.set_seq a (Wire.get_seq a (hdr p) + 1) (hdr p) in
  let h2 := Wire.set_send_time_us a (u64 clock) h1 in
  {| st := Running; run := run p; hdr := h2;
     sent := sent p ++ [firstn (Wire.datagram_size a) h2];
     slept := slept p ++ [100000];
     err := err p; hdr_freed := hdr_freed p; sock_closed := sock_closed p |}.

(** After the loop (lines 46-48): [free], [close], [return 0]. *)
Definition finish (p : proc) : proc :=
  {| st := Exited 0; run := run p; hdr := hdr p; sent := sent p;
     slept := slept p; err := err p; hdr_freed := true; sock_closed := true |}.

Definition step (a : abi) (p : proc) (ev : event) : proc :=
  match st p with
  | Exited _ => p
  | Running =>
      match ev with
      | Signal => handle_sig p
      | Iterate clock => if run p =? 0 then finish p else body a clock p
      end
  end.

Definition exec (a : abi) (p : proc) (evs : list event) : proc :=
  fold_left (step a) evs p.

Definition main (a : abi) (e : startup) (evs : list event) : proc :=
  exec a (start a e) evs.

End Client.

(** ** The probe server, [custom_udp_server.c] *)

Module Server.

(** What the environment decides at startup: the command line, the value
    [bind] returns, whether [fopen] returns a stream, the text of [errno]
    for [perror], and the initial contents of the array [buffer]. *)
Record startup : Type := {
  argv : list string;
  bind_result : Z;
  fopen_ok : bool;
  errno_text : string;
  stack : list byte
}.

Record proc : Type := {
  st : status;
  run : Z;                      (* the global [int run] *)
  buffer : list byte;           (* [uint8_t buffer[1024]] *)
  recv_log : list string;       (* what [fprintf] wrote to [recv.log], oldest first *)
  err : string;                 (* standard error *)
  fp_closed : bool;             (* [fclose(fp)] was called *)
  sock_closed : bool            (* [close(sockfd)] was called *)
}.

Definition buffer_size : nat := 1024.

Definition usage (argv : list string) : string :=
  ("Usage: " ++ argv0 argv ++ " <ip> <port>" ++ newline)%string.

Definition failed (msg : string) : proc :=
  {| st := Exited 1; run := 1; buffer := []; recv_log := []; err := msg;
     fp_closed := false; sock_closed := false |}.

(** [main] up to the loop (lines 14-42): the check of [argc], [bind],
    [fopen]; each failure writes to standard error and returns 1. *)
Definition start (e : startup) : proc :=
  if Z.of_nat (List.length (argv e)) <? 3 then failed (usage (argv e))
  else if bind_result e <? 0 then failed (perror "bind failed" (errno_text e))
  else if negb (fopen_ok e) then failed (perror "recv.log" (errno_text e))
  else
    {| st := Running; run := 1; buffer := stack e; recv_log := [];
       err := EmptyString; fp_closed := false; sock_closed := false |}.

(** What one call of [recvfrom] does: it delivers a datagram, or fails. *)
Inductive recv_result : Type :=
| Datagram (d : list byte)
| RecvError.

(** [recvfrom(sockfd, buffer, sizeof(buffer), ...)]: the value returned
    and the buffer afterwards.  A datagram longer than the buffer is
    truncated; a failed call returns -1 and leaves the buffer as it was. *)
Definition recvfrom (buf : list byte) (r : recv_result) : Z * list byte :=
  match r with
  | Datagram d =>
      let n := Nat.min (List.length d) buffer_size in
      (Z.of_nat n, firstn n d ++ skipn n buf)
  | RecvError => (-1, buf)
  end.

(** [Signal]: SIGINT or SIGTERM is delivered and [handle_sig] runs.
    [Iterate r clock]: the loop condition is evaluated and, if it holds, the
    body runs.  [run] is read by the loop condition only, so a signal
    delivered while [recvfrom] is in progress, or later in the body, is a
    [Signal] right after the [Iterate] of that iteration: the receive in
    progress still completes and is handled (see [ServerPoints]). *)
Inductive event : Type :=
| Signal
| Iterate (r : recv_result) (clock : Z).

Definition handle_sig (p : proc) : proc :=
  {| st := st p; run := 0; buffer := buffer p; recv_log := recv_log p;
     err := err p; fp_closed := fp_closed p; sock_closed := sock_closed p |}.

(** [int64_t lat = now - hdr->send_time_us; if (lat < 0) lat = 0;] *)
Definition latency (now send_time : Z) : Z :=
  let lat := to_int64 (now - send_time) in
  if lat <? 0 then 0 else lat.

(** [fprintf(fp, "%u %ld\n", hdr->seq, lat)] *)
Definition record_line (sequence lat : Z) : string :=
  (decimal sequence ++ " " ++ decimal lat ++ newline)%string.

(** The line the server writes for the header at the front of [buf]. *)
Definition line_of (a : abi) (clock : Z) (buf : list byte) : string :=
  record_line (Wire.get_seq a buf)
              (latency (u64 clock) (Wire.get_send_time_us a buf)).

(** The loop body (lines 46-56).  [n] is an [int] and
    [sizeof(stgen_hdr_t)] a [size_t], so the comparison is made in [size_t].
    [clock] is what [now_us] returns if it is called. *)
Definition body (a : abi) (r : recv_result) (clock : Z) (p : proc) : proc :=
  let (n, buf) := recvfrom (buffer p) r in
  if to_size_t n >=? Z.of_nat (Wire.sizeof_hdr a) then
    {| st := Running; run := run p; buffer := buf;
       recv_log := recv_log p ++ [line_of a clock buf];
       err := err p; fp_closed := fp_closed p; sock_closed := sock_closed p |}
  else
    {| st := Running; run := run p; buffer := buf; recv_log := recv_log p;
       err := err p; fp_closed := fp_closed p; sock_closed := sock_closed p |}.

(** After the loop (lines 59-61): [fclose], [close], [return 0]. *)
Definition finish (p : proc) : proc :=
  {| st := Exited 0; run := run p; buffer := buffer p;
     recv_log := recv_log p; err := err p;
     fp_closed := true; sock_closed := true |}.

Definition step (a : abi) (p : proc) (ev : event) : proc :=
  match st p with
  | Exited _ => p
  | Running =>
      match ev with
      | Signal => handle_sig p
      | Iterate r clock => if run p =? 0 then finish p else body a r clock p
      end
  end.

Definition exec (a : abi) (p : proc) (evs : list event) : proc :=
  fold_left (step a) evs p.

Definition main (a : abi) (e : startup) (evs : list event) : proc :=
  exec a (start e) evs.

(** The transport of the lossless, in-order scenario: the server's
    [k]-th receive returns the [k]-th datagram the client sent. *)
Definition deliver (ds : list (list byte)) (clocks : list Z) : list event :=
  map (fun dc => Iterate (Datagram (fst dc)) (snd dc)) (List.combine ds clocks).

End Server.

(** ** The spec's reading of the latency *)

(** The latency as the spec words it: the difference of the two clock
    readings as integers, replaced by zero when it is negative.  Kept apart
    from [Server.latency], which is what the code computes. *)
Definition claimed_latency (now send_time : Z) : Z := Z.max 0 (now - send_time).

(** ** Concrete runs *)

Module Scenario.

Definition le_packed : abi := {| byte_order := LittleEndian; hdr_layout := Packed |}.
Definition be_packed : abi := {| byte_order := BigEndian; hdr_layout := Packed |}.
Definition le_aligned : abi := {| byte_order := LittleEndian; hdr_layout := Aligned |}.

Definition client_env (a : abi) : Client.startup :=
  {| Client.argv := ["client"; "127.0.0.1"; "9000"; "7"]%string;
     Client.heap := repeat Byte.x00 (Wire.datagram_size a) |}.

Definition server_env : Server.startup :=
  {| Server.argv := ["server"; "127.0.0.1"; "9000"]%string;
     Server.bind_result := 0;
     Server.fopen_ok := true;
     Server.errno_text := "Success"%string;
     Server.stack := repeat Byte.x00 Server.buffer_size |}.

(** The first datagram of a client whose clock reads 1000. *)
Definition first_datagram (a : abi) : list byte :=
  nth 0 (Client.sent (Client.main a (client_env a) [Client.Iterate 1000])) [].

(** A 12-byte datagram of [0xff] bytes: sequence [2^32-1], send time
    [2^64-1]. *)
Definition all_ones : list byte := repeat Byte.xff 12.

End Scenario.

(** ** Invariants of the client *)

(** Every datagram sent so far has the full size and carries, as the client
    reads its own header, its position in the run as sequence number. *)
Definition seq_numbered (a : abi) (ds : list (list byte)) : Prop :=
  forall i d, nth_error ds i = Some d ->
    List.length d = Wire.datagram_size a /\
    Wire.get_seq a d = u32 (Z.of_nat i + 1).

(** While the loop runs, [hdr->seq] counts the datagrams sent. *)
Definition client_inv (a : abi) (p : Client.proc) : Prop :=
  seq_numbered a (Client.sent p) /\
  (Client.st p = Running ->
   List.length (Client.hdr p) = Wire.datagram_size a /\
   Wire.get_seq a (Client.hdr p) = u32 (Z.of_nat (List.length (Client.sent p)))).

(** ** Reading event traces and logs *)

(** The clock readings of the [Iterate] events that come before the first
    [Signal] event: the iterations whose loop condition is evaluated while
    the run flag is still set. *)
Fixpoint client_clocks (evs : list Client.event) : list Z :=
  match evs with
  | [] => []
  | Client.Signal :: _ => []
  | Client.Iterate clock :: evs' => clock :: client_clocks evs'
  end.

Definition is_client_iterate (ev : Client.event) : bool :=
  match ev with
  | Client.Iterate _ => true
  | Client.Signal => false
  end.

Definition is_server_iterate (ev : Server.event) : bool :=
  match ev with
  | Server.Iterate _ _ => true
  | Server.Signal => false
  end.

(** A datagram, paired with the clock reading at its receipt, that is at
    least as long as the server's header. *)
Definition holds_header (a : abi) (dc : list byte * Z) : bool :=
  (Wire.sizeof_hdr a <=? List.length (fst dc))%nat.

(** A line of [recv.log] a reader can parse: an unsigned 32-bit sequence, a
    space, a non-negative signed 64-bit latency, and the only newline at
    the end. *)
Definition well_formed_line (line : string) : Prop :=
  exists s l,
    line = (decimal s ++ " " ++ decimal l ++ newline)%string /\
    0 <= s < 2 ^ 32 /\ 0 <= l < 2 ^ 63 /\
    count_newlines line = 1%nat.

(** The bytes of a datagram buffer that belong to neither header field:
    the padding between the fields (empty in the packed layout) and
    everything after the header. *)
Definition outside_fields (a : abi) (mem : list byte) : list byte * list byte :=
  (firstn (Wire.send_time_off a - (Wire.seq_off + Wire.seq_size))
          (skipn (Wire.seq_off + Wire.seq_size) mem),
   skipn (Wire.sizeof_hdr a) mem).

(** ** Signals inside an iteration *)

(** [Client.step] and [Server.step] take a whole loop iteration as one
    event.  The two modules below split the iteration at the places where
    the process can be when a signal is delivered, so that a signal can
    arrive between the evaluation of the loop condition and the end of the
    body.  They reuse the bodies of the coarser models. *)

Module ClientPoints.

Inductive point : Set :=
| AtTest      (* about to evaluate [while(run)], line 37 *)
| InBody      (* the condition held; lines 38-41 and the call of [usleep] are ahead *)
| InSleep.    (* inside [usleep(100000)], line 43 *)

(** [Advance clock] moves the process to its next point; [clock] is what
    [now_us] returns and is read only when the body runs.  [Signal] runs
    [handle_sig] wherever the process is. *)
Inductive event : Type :=
| Signal
| Advance (clock : Z).

Definition step (a : abi) (s : point * Client.proc) (ev : event)
  : point * Client.proc :=
  match Client.st (snd s) with
  | Exited _ => s
  | Running =>
      match ev with
      | Signal => (fst s, Client.handle_sig (snd s))
      | Advance clock =>
          match fst s with
          | AtTest =>
              if Client.run (snd s) =? 0 then (AtTest, Client.finish (snd s))
              else (InBody, snd s)
          | InBody => (InSleep, Client.body a clock (snd s))
          | InSleep => (AtTest, snd s)
          end
      end
  end.

Definition exec (a : abi) (s : point * Client.proc) (evs : list event)
  : point * Client.proc :=
  fold_left (step a) evs s.

(** A run of whole iterations as a run of points: three advances for an
    iteration, with the signals in between. *)
Definition expand (evs : list Client.event) : list event :=
  flat_map (fun ev =>
              match ev with
              | Client.Signal => [Signal]
              | Client.Iterate clock => [Advance clock; Advance clock; Advance clock]
              end) evs.

(** The clock readings of the advances of a trace, in order. *)
Fixpoint advances (evs : list event) : list Z :=
  match evs with
  | [] => []
  | Signal :: evs' => advances evs'
  | Advance clock :: evs' => clock :: advances evs'
  end.

Definition next (pt : point) : point :=
  match pt with
  | AtTest => InBody
  | InBody => InSleep
  | InSleep => AtTest
  end.

(** Where a process whose run flag stays set is after the advances
    [clocks], and the clock readings at which it ran the body on the way. *)
Fixpoint point_after (pt : point) (clocks : list Z) : point :=
  match clocks with
  | [] => pt
  | _ :: cs => point_after (next pt) cs
  end.

Fixpoint body_clocks (pt : point) (clocks : list Z) : list Z :=
  match clocks with
  | [] => []
  | c :: cs =>
      match pt with
      | InBody => c :: body_clocks (next pt) cs
      | _ => body_clocks (next pt) cs
      end
  end.

(** The body still ahead of a process that is at [pt] when the run flag is
    cleared: one, at the next advance, if the loop condition has already
    been passed. *)
Definition in_flight (pt : point) (clocks : list Z) : list Z :=
  match pt with
  | InBody => firstn 1 clocks
  | _ => []
  end.

(** Advances needed to leave the loop once the run flag is clear. *)
Definition advances_to_exit (pt : point) : nat :=
  match pt with
  | AtTest => 1
  | InSleep => 2
  | InBody => 3
  end.

End ClientPoints.

Module ServerPoints.

Inductive point : Set :=
| AtTest      (* about to evaluate [while(run)], line 45 *)
| InRecv.     (* the condition held; [recvfrom] is in progress, line 47 *)

(** [Advance r clock] moves the process to its next point; [r] is what
    [recvfrom] does and [clock] what [now_us] returns, both used only when
    the process is in [recvfrom].  A signal delivered between the return
    of [recvfrom] and the end of the body finds the process at no point
    where [run] is read before [AtTest], and is a signal at [AtTest]. *)
Inductive event : Type :=
| Signal
| Advance (r : Server.recv_result) (clock : Z).

Definition step (a : abi) (s : point * Server.proc) (ev : event)
  : point * Server.proc :=
  match Server.st (snd s) with
  | Exited _ => s
  | Running =>
      match ev with
      | Signal => (fst s, Server.handle_sig (snd s))
      | Advance r clock =>
          match fst s with
          | AtTest =>
              if Server.run (snd s) =? 0 then (AtTest, Server.finish (snd s))
              else (InRecv, snd s)
          | InRecv => (AtTest, Server.body a r clock (snd s))
          end
      end
  end.

Definition exec (a : abi) (s : point * Server.proc) (evs : list event)
  : point * Server.proc :=
  fold_left (step a) evs s.

Definition expand (evs : list Server.event) : list event :=
  flat_map (fun ev =>
              match ev with
              | Server.Signal => [Signal]
              | Server.Iterate r clock => [Advance r clock; Advance r clock]
              end) evs.

Fixpoint advances (evs : list event) : list (Server.recv_result * Z) :=
  match evs with
  | [] => []
  | Signal :: evs' => advances evs'
  | Advance r clock :: evs' => (r, clock) :: advances evs'
  end.

Definition advances_to_exit (pt : point) : nat :=
  match pt with
  | AtTest => 1
  | InRecv => 2
  end.

End ServerPoints.

(** * Properties *)

(** ** Integer conversions *)

Lemma u32_range z : 0 <= u32 z < 2 ^ 32.
Proof. unfold u32. apply Z.mod_pos_bound. lia. Qed.

Lemma u64_range z : 0 <= u64 z < 2 ^ 64.
Proof. unfold u64. apply Z.mod_pos_bound. lia. Qed.

Lemma u64_small z : 0 <= z < 2 ^ 64 -> u64 z = z.
Proof. intros H. unfold u64. apply Z.mod_small. exact H. Qed.

Lemma to_int64_range z : - 2 ^ 63 <= to_int64 z < 2 ^ 63.
Proof.
  unfold to_int64. cbv zeta. pose proof (u64_range z) as H.
  destruct (Z.ltb_spec (u64 z) (2 ^ 63)); lia.
Qed.

(** [to_int64] is the representative of [z] modulo [2^64] in the signed
    range. *)
Lemma to_int64_centered z : to_int64 z = (z + 2 ^ 63) mod 2 ^ 64 - 2 ^ 63.
Proof.
  unfold to_int64, u64. cbv zeta.
  change (2 ^ 64) with 18446744073709551616.
  change (2 ^ 63) with 9223372036854775808.
  destruct (Z.ltb_spec (z mod 18446744073709551616) 9223372036854775808);
    Z.div_mod_to_equations; lia.
Qed.

Lemma to_int64_small z : - 2 ^ 63 <= z < 2 ^ 63 -> to_int64 z = z.
Proof.
  intros H. rewrite to_int64_centered. rewrite Z.mod_small; lia.
Qed.

Lemma to_size_t_small n : 0 <= n < 2 ^ 64 -> to_size_t n = n.
Proof. intros H. unfold to_size_t. apply Z.mod_small. exact H. Qed.

(** ** Raw memory *)

Lemma length_to_bytes e n v : List.length (to_bytes e n v) = n.
Proof.
  destruct e; simpl.
  - apply length_le_split.
  - rewrite length_rev. apply length_le_split.
Qed.

Lemma of_bytes_to_bytes e n v : of_bytes e (to_bytes e n v) = v mod 2 ^ (Z.of_nat n * 8).
Proof.
  destruct e; simpl.
  - apply le_combine_split.
  - rewrite rev_involutive. apply le_combine_split.
Qed.

Lemma to_bytes_of_bytes e bs : to_bytes e (List.length bs) (of_bytes e bs) = bs.
Proof.
  destruct e; simpl.
  - apply split_le_combine.
  - rewrite <- (length_rev bs). rewrite split_le_combine. apply rev_involutive.
Qed.

Lemma length_store e n off v mem :
  (off + n <= List.length mem)%nat ->
  List.length (store e n off v mem) = List.length mem.
Proof.
  intros H. unfold store.
  rewrite !length_app, length_to_bytes, length_firstn, length_skipn. lia.
Qed.

Lemma field_of_store e n off v mem :
  (off <= List.length mem)%nat ->
  firstn n (skipn off (store e n off v mem)) = to_bytes e n v.
Proof.
  intros H. unfold store.
  rewrite skipn_app, length_firstn, Nat.min_l by exact H.
  rewrite (skipn_all2 (firstn off mem)) by (rewrite length_firstn; lia).
  rewrite Nat.sub_diag. simpl.
  rewrite firstn_app, length_to_bytes, Nat.sub_diag. simpl.
  rewrite app_nil_r. rewrite <- (length_to_bytes e n v) at 1. apply firstn_all.
Qed.

Lemma load_store_same e n off v mem :
  (off <= List.length mem)%nat ->
  load e n off (store e n off v mem) = v mod 2 ^ (Z.of_nat n * 8).
Proof.
  intros H. unfold load. rewrite field_of_store by exact H. apply of_bytes_to_bytes.
Qed.

(** A store leaves the bytes before it as they were. *)
Lemma field_before_store e m off' v n off mem :
  (off + n <= off')%nat -> (off' <= List.length mem)%nat ->
  firstn n (skipn off (store e m off' v mem)) = firstn n (skipn off mem).
Proof.
  intros H1 H2. unfold store.
  rewrite skipn_app, firstn_app.
  rewrite length_skipn, !length_firstn, !Nat.min_l by exact H2.
  replace (off - off')%nat with 0%nat by lia.
  replace (n - (off' - off))%nat with 0%nat by lia.
  simpl. rewrite app_nil_r.
  rewrite skipn_firstn_comm, firstn_firstn. f_equal. lia.
Qed.

(** A field read looks at the bytes of the field only. *)
Lemma field_app_l n off (l1 l2 : list byte) :
  (off + n <= List.length l1)%nat ->
  firstn n (skipn off (l1 ++ l2)) = firstn n (skipn off l1).
Proof.
  intros H. rewrite skipn_app, firstn_app, length_skipn.
  replace (n - (List.length l1 - off))%nat with 0%nat by lia.
  simpl. apply app_nil_r.
Qed.

Lemma field_firstn n off k (mem : list byte) :
  (off + n <= k)%nat ->
  firstn n (skipn off (firstn k mem)) = firstn n (skipn off mem).
Proof.
  intros H. rewrite skipn_firstn_comm, firstn_firstn. f_equal. lia.
Qed.

Lemma length_field n off (mem : list byte) :
  (off + n <= List.length mem)%nat ->
  List.length (firstn n (skipn off mem)) = n.
Proof. intros H. rewrite length_firstn, length_skipn. lia. Qed.

(** ** The header *)

Lemma send_time_off_bounds a :
  (Wire.seq_off + Wire.seq_size <= Wire.send_time_off a)%nat /\
  (Wire.send_time_off a + Wire.send_time_size <= Wire.sizeof_hdr a)%nat.
Proof.
  unfold Wire.send_time_off, Wire.sizeof_hdr, Wire.seq_off, Wire.seq_size,
    Wire.send_time_size.
  destruct (hdr_layout a); lia.
Qed.

Lemma sizeof_hdr_cases a : Wire.sizeof_hdr a = 12%nat \/ Wire.sizeof_hdr a = 16%nat.
Proof. unfold Wire.sizeof_hdr. destruct (hdr_layout a); auto. Qed.

Lemma length_set_seq a v mem :
  (Wire.sizeof_hdr a <= List.length mem)%nat ->
  List.length (Wire.set_seq a v mem) = List.length mem.
Proof.
  intros H. unfold Wire.set_seq. apply length_store.
  pose proof (send_time_off_bounds a). lia.
Qed.

Lemma length_set_send_time_us a v mem :
  (Wire.sizeof_hdr a <= List.length mem)%nat ->
  List.length (Wire.set_send_time_us a v mem) = List.length mem.
Proof.
  intros H. unfold Wire.set_send_time_us. apply length_store.
  pose proof (send_time_off_bounds a). lia.
Qed.

Lemma get_seq_set_seq a v mem : Wire.get_seq a (Wire.set_seq a v mem) = u32 v.
Proof.
  unfold Wire.get_seq, Wire.set_seq.
  rewrite load_store_same by (unfold Wire.seq_off; lia). reflexivity.
Qed.

Lemma get_send_time_us_set a v mem :
  (Wire.sizeof_hdr a <= List.length mem)%nat ->
  Wire.get_send_time_us a (Wire.set_send_time_us a v mem) = u64 v.
Proof.
  intros H. unfold Wire.get_send_time_us, Wire.set_send_time_us.
  rewrite load_store_same by (pose proof (send_time_off_bounds a); lia).
  reflexivity.
Qed.

Lemma seq_bytes_set_send_time_us a v mem :
  (Wire.sizeof_hdr a <= List.length mem)%nat ->
  Wire.seq_bytes (Wire.set_send_time_us a v mem) = Wire.seq_bytes mem.
Proof.
  intros H. unfold Wire.seq_bytes, Wire.set_send_time_us.
  pose proof (send_time_off_bounds a).
  apply field_before_store; lia.
Qed.

Lemma get_seq_set_send_time_us a v mem :
  (Wire.sizeof_hdr a <= List.length mem)%nat ->
  Wire.get_seq a (Wire.set_send_time_us a v mem) = Wire.get_seq a mem.
Proof.
  intros H. unfold Wire.get_seq, load.
  change (firstn Wire.seq_size (skipn Wire.seq_off ?m)) with (Wire.seq_bytes m).
  rewrite seq_bytes_set_send_time_us by exact H. reflexivity.
Qed.

Lemma get_seq_range a mem : 0 <= Wire.get_seq a mem < 2 ^ 32.
Proof.
  unfold Wire.get_seq, load, of_bytes.
  set (bs := firstn Wire.seq_size (skipn Wire.seq_off mem)).
  assert (Hlen : (List.length bs <= 4)%nat)
    by (subst bs; rewrite length_firstn; unfold Wire.seq_size; lia).
  assert (Hpow : forall l : list byte, (List.length l <= 4)%nat ->
                 0 <= le_combine l < 2 ^ 32).
  { intros l Hl. pose proof (le_combine_bound l) as Hb.
    assert (2 ^ (8 * Z.of_nat (List.length l)) <= 2 ^ 32)
      by (apply Z.pow_le_mono_r; lia).
    lia. }
  destruct (byte_order a); apply Hpow; [ | rewrite length_rev ]; exact Hlen.
Qed.

Lemma get_send_time_us_range a mem : 0 <= Wire.get_send_time_us a mem < 2 ^ 64.
Proof.
  unfold Wire.get_send_time_us, load, of_bytes.
  set (bs := firstn Wire.send_time_size (skipn (Wire.send_time_off a) mem)).
  assert (Hlen : (List.length bs <= 8)%nat)
    by (subst bs; rewrite length_firstn; unfold Wire.send_time_size; lia).
  assert (Hpow : forall l : list byte, (List.length l <= 8)%nat ->
                 0 <= le_combine l < 2 ^ 64).
  { intros l Hl. pose proof (le_combine_bound l) as Hb.
    assert (2 ^ (8 * Z.of_nat (List.length l)) <= 2 ^ 64)
      by (apply Z.pow_le_mono_r; lia).
    lia. }
  destruct (byte_order a); apply Hpow; [ | rewrite length_rev ]; exact Hlen.
Qed.

(** The header fields of a buffer depend on its first [sizeof_hdr] bytes
    only. *)
Lemma seq_bytes_prefix a k (d rest : list byte) :
  (Wire.sizeof_hdr a <= k)%nat -> (Wire.sizeof_hdr a <= List.length d)%nat ->
  Wire.seq_bytes (firstn k d ++ rest) = Wire.seq_bytes d.
Proof.
  intros Hk Hd. unfold Wire.seq_bytes. pose proof (send_time_off_bounds a).
  rewrite field_app_l by (rewrite length_firstn; lia).
  apply field_firstn. lia.
Qed.

Lemma send_time_bytes_prefix a k (d rest : list byte) :
  (Wire.sizeof_hdr a <= k)%nat -> (Wire.sizeof_hdr a <= List.length d)%nat ->
  Wire.send_time_bytes a (firstn k d ++ rest) = Wire.send_time_bytes a d.
Proof.
  intros Hk Hd. unfold Wire.send_time_bytes. pose proof (send_time_off_bounds a).
  rewrite field_app_l by (rewrite length_firstn; lia).
  apply field_firstn. lia.
Qed.

Lemma get_seq_prefix a k (d rest : list byte) :
  (Wire.sizeof_hdr a <= k)%nat -> (Wire.sizeof_hdr a <= List.length d)%nat ->
  Wire.get_seq a (firstn k d ++ rest) = Wire.get_seq a d.
Proof.
  intros Hk Hd. unfold Wire.get_seq, load.
  change (firstn Wire.seq_size (skipn Wire.seq_off ?m)) with (Wire.seq_bytes m).
  rewrite (seq_bytes_prefix a) by assumption. reflexivity.
Qed.

Lemma get_send_time_us_prefix a k (d rest : list byte) :
  (Wire.sizeof_hdr a <= k)%nat -> (Wire.sizeof_hdr a <= List.length d)%nat ->
  Wire.get_send_time_us a (firstn k d ++ rest) = Wire.get_send_time_us a d.
Proof.
  intros Hk Hd. unfold Wire.get_send_time_us, load.
  change (firstn Wire.send_time_size (skipn (Wire.send_time_off a) ?m))
    with (Wire.send_time_bytes a m).
  rewrite (send_time_bytes_prefix a) by assumption. reflexivity.
Qed.

(** ** Text output *)

Lemma count_newlines_app s1 s2 :
  count_newlines (s1 ++ s2) = (count_newlines s1 + count_newlines s2)%nat.
Proof.
  induction s1 as [ | c s1 IH]; simpl.
  - reflexivity.
  - rewrite IH. lia.
Qed.

Lemma count_newlines_uint d : count_newlines (NilEmpty.string_of_uint d) = 0%nat.
Proof. induction d; simpl; auto. Qed.

Lemma count_newlines_decimal z : count_newlines (decimal z) = 0%nat.
Proof.
  unfold decimal, NilZero.string_of_int, NilZero.string_of_uint.
  destruct (Z.to_int z) as [d | d]; destruct d; simpl;
    auto using count_newlines_uint.
Qed.

Lemma record_line_one_line s l : count_newlines (Server.record_line s l) = 1%nat.
Proof.
  unfold Server.record_line.
  rewrite !count_newlines_app, !count_newlines_decimal. reflexivity.
Qed.

(** ** The client loop *)

Lemma datagram_size_ge_sizeof a : (Wire.sizeof_hdr a <= Wire.datagram_size a)%nat.
Proof. unfold Wire.datagram_size. lia. Qed.

Lemma u32_succ z : u32 (u32 z + 1) = u32 (z + 1).
Proof. unfold u32. apply Zplus_mod_idemp_l. Qed.

Section ClientBody.
Variable a : abi.
Variable p : Client.proc.
Variable clock : Z.
Hypothesis Hlen : List.length (Client.hdr p) = Wire.datagram_size a.

Lemma body_hdr_length :
  List.length (Client.hdr (Client.body a clock p)) = Wire.datagram_size a.
Proof.
  pose proof (datagram_size_ge_sizeof a).
  simpl. rewrite length_set_send_time_us; rewrite length_set_seq; lia.
Qed.

Lemma body_sent :
  Client.sent (Client.body a clock p) =
  Client.sent p ++ [Client.hdr (Client.body a clock p)].
Proof.
  simpl. f_equal. f_equal.
  pose proof body_hdr_length as H. simpl in H.
  rewrite <- H. apply firstn_all.
Qed.

Lemma body_seq :
  Wire.get_seq a (Client.hdr (Client.body a clock p)) =
  u32 (Wire.get_seq a (Client.hdr p) + 1).
Proof.
  pose proof (datagram_size_ge_sizeof a).
  simpl. rewrite get_seq_set_send_time_us by (rewrite length_set_seq; lia).
  apply get_seq_set_seq.
Qed.

Lemma body_send_time :
  Wire.get_send_time_us a (Client.hdr (Client.body a clock p)) = u64 clock.
Proof.
  pose proof (datagram_size_ge_sizeof a).
  simpl. rewrite get_send_time_us_set by (rewrite length_set_seq; lia).
  unfold u64. apply Z.mod_mod. lia.
Qed.
End ClientBody.

Lemma seq_numbered_snoc a ds d :
  seq_numbered a ds ->
  List.length d = Wire.datagram_size a ->
  Wire.get_seq a d = u32 (Z.of_nat (List.length ds) + 1) ->
  seq_numbered a (ds ++ [d]).
Proof.
  intros Hds Hd Hs i x Hx.
  destruct (Nat.lt_ge_cases i (List.length ds)) as [Hlt | Hge].
  - rewrite nth_error_app1 in Hx by exact Hlt. apply Hds. exact Hx.
  - rewrite nth_error_app2 in Hx by exact Hge.
    destruct (i - List.length ds)%nat as [ | k] eqn:Hk; simpl in Hx.
    + injection Hx as <-. replace i with (List.length ds) by lia. auto.
    + destruct k; discriminate.
Qed.

Lemma client_inv_start a e :
  List.length (Client.heap e) = Wire.datagram_size a ->
  client_inv a (Client.start a e).
Proof.
  intros Hheap. unfold Client.start.
  destruct (Z.of_nat (List.length (Client.argv e)) <? 4); split; simpl.
  - intros [ | i] d H; discriminate.
  - discriminate.
  - intros [ | i] d H; discriminate.
  - intros _. pose proof (datagram_size_ge_sizeof a). split.
    + rewrite length_set_seq; lia.
    + rewrite get_seq_set_seq. reflexivity.
Qed.

Lemma client_inv_step a p ev : client_inv a p -> client_inv a (Client.step a p ev).
Proof.
  intros [Hsent Hrun]. unfold Client.step.
  destruct (Client.st p) eqn:Hst; [ | split; [exact Hsent | rewrite Hst; exact Hrun] ].
  destruct (Hrun eq_refl) as [Hlen Hseq].
  destruct ev as [ | clock].
  - split; [exact Hsent | simpl; intros _; auto].
  - destruct (Client.run p =? 0).
    + split; [exact Hsent | simpl; discriminate].
    + assert (Hs : Wire.get_seq a (Client.hdr (Client.body a clock p)) =
                   u32 (Z.of_nat (List.length (Client.sent p)) + 1))
        by (rewrite body_seq, Hseq by exact Hlen; apply u32_succ).
      split.
      * rewrite body_sent by exact Hlen.
        apply seq_numbered_snoc;
          [exact Hsent | apply body_hdr_length; exact Hlen | exact Hs].
      * intros _. split; [apply body_hdr_length; exact Hlen | ].
        rewrite Hs, body_sent by exact Hlen.
        rewrite length_app. simpl. f_equal. lia.
Qed.

Lemma client_inv_exec a evs : forall p, client_inv a p -> client_inv a (Client.exec a p evs).
Proof.
  unfold Client.exec.
  induction evs as [ | ev evs IH]; intros p Hp; simpl.
  - exact Hp.
  - apply IH. apply client_inv_step. exact Hp.
Qed.

(** Once the process has exited nothing more happens. *)
Lemma client_exec_exited a evs : forall p c,
  Client.st p = Exited c -> Client.exec a p evs = p.
Proof.
  unfold Client.exec.
  induction evs as [ | ev evs IH]; intros p c Hp; simpl.
  - reflexivity.
  - assert (Hs : Client.step a p ev = p) by (unfold Client.step; rewrite Hp; reflexivity).
    rewrite Hs. apply (IH p c Hp).
Qed.

(** From the loop on, the only exit status is 0. *)
Lemma client_step_status a p ev :
  Client.st p = Running \/ Client.st p = Exited 0 ->
  Client.st (Client.step a p ev) = Running \/ Client.st (Client.step a p ev) = Exited 0.
Proof.
  intros H. unfold Client.step.
  destruct (Client.st p) eqn:Hst; [ | rewrite Hst; exact H].
  destruct ev as [ | clock]; simpl; auto.
  destruct (Client.run p =? 0); simpl; auto.
Qed.

Lemma client_exec_status a evs : forall p,
  Client.st p = Running \/ Client.st p = Exited 0 ->
  Client.st (Client.exec a p evs) = Running \/ Client.st (Client.exec a p evs) = Exited 0.
Proof.
  unfold Client.exec.
  induction evs as [ | ev evs IH]; intros p Hp; simpl.
  - exact Hp.
  - apply IH. apply client_step_status. exact Hp.
Qed.

(** ** The server loop *)

Lemma sizeof_hdr_le_buffer a : (Wire.sizeof_hdr a <= Server.buffer_size)%nat.
Proof.
  unfold Server.buffer_size. destruct (sizeof_hdr_cases a) as [-> | ->]; lia.
Qed.

(** The length check on what [recvfrom] returns for a datagram. *)
Lemma length_check_datagram a (d : list byte) :
  (to_size_t (Z.of_nat (Nat.min (List.length d) Server.buffer_size))
     >=? Z.of_nat (Wire.sizeof_hdr a)) =
  (Wire.sizeof_hdr a <=? List.length d)%nat.
Proof.
  pose proof (sizeof_hdr_le_buffer a) as Hb.
  rewrite to_size_t_small
    by (unfold Server.buffer_size in *; change (2 ^ 64) with 18446744073709551616; lia).
  rewrite Z.geb_leb.
  destruct (Nat.leb_spec (Wire.sizeof_hdr a) (List.length d)).
  - apply Z.leb_le. lia.
  - apply Z.leb_gt. lia.
Qed.

(** The same check on the -1 of a failed [recvfrom]: the conversion to
    [size_t] makes it the largest value of the type. *)
Lemma length_check_error a :
  (to_size_t (-1) >=? Z.of_nat (Wire.sizeof_hdr a)) = true.
Proof.
  rewrite Z.geb_leb. apply Z.leb_le.
  change (to_size_t (-1)) with 18446744073709551615.
  destruct (sizeof_hdr_cases a) as [-> | ->]; lia.
Qed.

Lemma line_of_prefix a clock k (d rest : list byte) :
  (Wire.sizeof_hdr a <= k)%nat -> (Wire.sizeof_hdr a <= List.length d)%nat ->
  Server.line_of a clock (firstn k d ++ rest) = Server.line_of a clock d.
Proof.
  intros Hk Hd. unfold Server.line_of.
  rewrite get_seq_prefix, get_send_time_us_prefix by assumption. reflexivity.
Qed.

(** A datagram at least as long as the header is logged ... *)
Lemma body_accepts a p d clock :
  (Wire.sizeof_hdr a <= List.length d)%nat ->
  Server.body a (Server.Datagram d) clock p =
  {| Server.st := Running; Server.run := Server.run p;
     Server.buffer :=
       firstn (Nat.min (List.length d) Server.buffer_size) d ++
       skipn (Nat.min (List.length d) Server.buffer_size) (Server.buffer p);
     Server.recv_log := Server.recv_log p ++ [Server.line_of a clock d];
     Server.err := Server.err p; Server.fp_closed := Server.fp_closed p;
     Server.sock_closed := Server.sock_closed p |}.
Proof.
  intros Hd. unfold Server.body, Server.recvfrom.
  rewrite length_check_datagram.
  destruct (Nat.leb_spec (Wire.sizeof_hdr a) (List.length d)); [ | lia].
  rewrite line_of_prefix; [reflexivity | | exact Hd].
  pose proof (sizeof_hdr_le_buffer a). lia.
Qed.

(** ... and a shorter one is not. *)
Lemma body_drops a p d clock :
  (List.length d < Wire.sizeof_hdr a)%nat ->
  Server.body a (Server.Datagram d) clock p =
  {| Server.st := Running; Server.run := Server.run p;
     Server.buffer :=
       firstn (Nat.min (List.length d) Server.buffer_size) d ++
       skipn (Nat.min (List.length d) Server.buffer_size) (Server.buffer p);
     Server.recv_log := Server.recv_log p;
     Server.err := Server.err p; Server.fp_closed := Server.fp_closed p;
     Server.sock_closed := Server.sock_closed p |}.
Proof.
  intros Hd. unfold Server.body, Server.recvfrom.
  rewrite length_check_datagram.
  destruct (Nat.leb_spec (Wire.sizeof_hdr a) (List.length d)); [lia | reflexivity].
Qed.

(** A failed [recvfrom] passes the length check, and the server logs the
    header that is still in the buffer. *)
Lemma body_recv_error a p clock :
  Server.body a Server.RecvError clock p =
  {| Server.st := Running; Server.run := Server.run p;
     Server.buffer := Server.buffer p;
     Server.recv_log :=
       Server.recv_log p ++ [Server.line_of a clock (Server.buffer p)];
     Server.err := Server.err p; Server.fp_closed := Server.fp_closed p;
     Server.sock_closed := Server.sock_closed p |}.
Proof.
  unfold Server.body, Server.recvfrom. rewrite length_check_error. reflexivity.
Qed.

Lemma server_step_running a p r clock :
  Server.st p = Running -> Server.run p <> 0 ->
  Server.step a p (Server.Iterate r clock) = Server.body a r clock p.
Proof.
  intros Hst Hrun. unfold Server.step. rewrite Hst.
  destruct (Z.eqb_spec (Server.run p) 0); [contradiction | reflexivity].
Qed.

Lemma server_exec_exited a evs : forall p c,
  Server.st p = Exited c -> Server.exec a p evs = p.
Proof.
  unfold Server.exec.
  induction evs as [ | ev evs IH]; intros p c Hp; simpl.
  - reflexivity.
  - assert (Hs : Server.step a p ev = p) by (unfold Server.step; rewrite Hp; reflexivity).
    rewrite Hs. apply (IH p c Hp).
Qed.

Lemma server_body_status a r clock p : Server.st (Server.body a r clock p) = Running.
Proof.
  unfold Server.body. destruct (Server.recvfrom (Server.buffer p) r) as [n buf].
  destruct (to_size_t n >=? Z.of_nat (Wire.sizeof_hdr a)); reflexivity.
Qed.

Lemma server_step_status a p ev :
  Server.st p = Running \/ Server.st p = Exited 0 ->
  Server.st (Server.step a p ev) = Running \/ Server.st (Server.step a p ev) = Exited 0.
Proof.
  intros H. unfold Server.step.
  destruct (Server.st p) eqn:Hst; [ | rewrite Hst; exact H].
  destruct ev as [ | r clock]; simpl; auto.
  destruct (Server.run p =? 0); simpl; auto.
  left. apply server_body_status.
Qed.

Lemma server_exec_status a evs : forall p,
  Server.st p = Running \/ Server.st p = Exited 0 ->
  Server.st (Server.exec a p evs) = Running \/ Server.st (Server.exec a p evs) = Exited 0.
Proof.
  unfold Server.exec.
  induction evs as [ | ev evs IH]; intros p Hp; simpl.
  - exact Hp.
  - apply IH. apply server_step_status. exact Hp.
Qed.

(** The server fed a run of datagrams that all pass the length check. *)
Lemma server_exec_deliver a ds : forall clocks p,
  Server.st p = Running -> Server.run p <> 0 ->
  Forall (fun d => (Wire.sizeof_hdr a <= List.length d)%nat) ds ->
  let p' := Server.exec a p (Server.deliver ds clocks) in
  Server.st p' = Running /\ Server.run p' = Server.run p /\
  Server.err p' = Server.err p /\
  Server.recv_log p' =
    Server.recv_log p ++
    map (fun dc => Server.line_of a (snd dc) (fst dc)) (List.combine ds clocks).
Proof.
  induction ds as [ | d ds IH]; intros clocks p Hst Hrun Hall; simpl.
  - rewrite app_nil_r. auto.
  - destruct clocks as [ | c clocks]; simpl.
    + rewrite app_nil_r. auto.
    + inversion Hall as [ | x xs Hd Hds]; subst.
      unfold Server.deliver, Server.exec in *. simpl.
      rewrite server_step_running by assumption.
      rewrite body_accepts by exact Hd.
      match goal with |- context [fold_left _ _ ?q] => set (p1 := q) end.
      destruct (IH clocks p1 eq_refl Hrun Hds) as (H1 & H2 & H3 & H4).
      rewrite H1, H2, H3, H4. subst p1. simpl.
      rewrite <- app_assoc. auto.
Qed.

(** * The claims *)

(** ** C1: one log line per valid datagram, latency clamped *)

Lemma latency_nonneg now t : 0 <= Server.latency now t.
Proof.
  unfold Server.latency. cbv zeta.
  destruct (Z.ltb_spec (to_int64 (now - t)) 0); lia.
Qed.

Lemma latency_centered now t :
  Server.latency now t = Z.max 0 ((now - t + 2 ^ 63) mod 2 ^ 64 - 2 ^ 63).
Proof.
  unfold Server.latency. cbv zeta. rewrite to_int64_centered.
  destruct (Z.ltb_spec ((now - t + 2 ^ 63) mod 2 ^ 64 - 2 ^ 63) 0); lia.
Qed.

Lemma latency_in_range now t :
  - 2 ^ 63 <= now - t < 2 ^ 63 -> Server.latency now t = claimed_latency now t.
Proof.
  intros H. rewrite latency_centered. unfold claimed_latency.
  rewrite Z.mod_small by lia. f_equal. lia.
Qed.

(** C1, as the claim states it, fails: a datagram whose send time is
    [2^64-1] arrives when the server's clock reads 1000.  The server's clock
    is behind the send time, the difference of the two is negative, and the
    line written carries the latency 1001, not 0. *)
Lemma far_future_send_time_not_clamped :
  let a := Scenario.le_packed in
  let d := Scenario.all_ones in
  let p := Server.main a Scenario.server_env
             [Server.Iterate (Server.Datagram d) 1000] in
  (Wire.sizeof_hdr a <= List.length d)%nat /\
  Wire.get_seq a d = 2 ^ 32 - 1 /\
  Wire.get_send_time_us a d = 2 ^ 64 - 1 /\
  u64 1000 < Wire.get_send_time_us a d /\
  claimed_latency (u64 1000) (Wire.get_send_time_us a d) = 0 /\
  Server.recv_log p = [Server.record_line (2 ^ 32 - 1) 1001] /\
  Server.recv_log p <>
    [Server.record_line (Wire.get_seq a d)
       (claimed_latency (u64 1000) (Wire.get_send_time_us a d))].
Proof.
  vm_compute. repeat split; try reflexivity; try lia; discriminate.
Qed.

(** C1 (amended): for every received datagram at least as long as the
    header, the server appends exactly one line ["<sequence> <latency>\n"];
    the sequence is the one in the received header; the latency is the
    difference of the server's clock and the send time, taken modulo [2^64]
    into the signed 64-bit range and then clamped to zero when negative;
    it is the plain difference clamped to zero whenever that difference fits
    the signed 64-bit range; and it is never negative. *)
Theorem valid_datagram_logged a p d clock :
  Server.st p = Running -> Server.run p <> 0 ->
  (Wire.sizeof_hdr a <= List.length d)%nat ->
  let p' := Server.step a p (Server.Iterate (Server.Datagram d) clock) in
  let s := Wire.get_seq a d in
  let t := Wire.get_send_time_us a d in
  let now := u64 clock in
  let lat := Server.latency now t in
  Server.recv_log p' =
    Server.recv_log p ++ [(decimal s ++ " " ++ decimal lat ++ newline)%string] /\
  count_newlines (decimal s ++ " " ++ decimal lat ++ newline) = 1%nat /\
  0 <= s < 2 ^ 32 /\
  lat = Z.max 0 ((now - t + 2 ^ 63) mod 2 ^ 64 - 2 ^ 63) /\
  (- 2 ^ 63 <= now - t < 2 ^ 63 -> lat = claimed_latency now t) /\
  0 <= lat.
Proof.
  intros Hst Hrun Hd. cbv zeta.
  rewrite server_step_running by assumption.
  rewrite body_accepts by exact Hd. simpl.
  split; [reflexivity | ].
  split; [apply record_line_one_line | ].
  split; [apply get_seq_range | ].
  split; [apply latency_centered | ].
  split; [apply latency_in_range | apply latency_nonneg].
Qed.

Lemma valid_datagram_logged_witness :
  let a := Scenario.le_packed in
  let p := Server.start Scenario.server_env in
  let d := Scenario.first_datagram a in
  Server.st p = Running /\ Server.run p <> 0 /\
  (Wire.sizeof_hdr a <= List.length d)%nat /\
  Server.recv_log (Server.step a p (Server.Iterate (Server.Datagram d) 1500)) =
    [("1 500" ++ newline)%string] /\
  0 <= Server.latency (u64 1500) (Wire.get_send_time_us a d).
Proof.
  cbv zeta.
  assert (H1 : Server.st (Server.start Scenario.server_env) = Running)
    by reflexivity.
  assert (H2 : Server.run (Server.start Scenario.server_env) <> 0)
    by (vm_compute; discriminate).
  assert (H3 : (Wire.sizeof_hdr Scenario.le_packed <=
                List.length (Scenario.first_datagram Scenario.le_packed))%nat)
    by (vm_compute; lia).
  pose proof (valid_datagram_logged Scenario.le_packed
                (Server.start Scenario.server_env)
                (Scenario.first_datagram Scenario.le_packed) 1500 H1 H2 H3) as H.
  cbv zeta in H. destruct H as (Hlog & _ & _ & _ & _ & Hnn).
  repeat split; first [assumption | rewrite Hlog; vm_compute; reflexivity].
Defined.

(** ** C2: round trip of the header *)

Lemma abi_eq (x y : abi) :
  byte_order x = byte_order y -> hdr_layout x = hdr_layout y -> x = y.
Proof. destruct x, y; simpl; intros -> ->; reflexivity. Qed.

Lemma client_step_running a p clock :
  Client.st p = Running -> Client.run p <> 0 ->
  Client.step a p (Client.Iterate clock) = Client.body a clock p.
Proof.
  intros Hst Hrun. unfold Client.step. rewrite Hst.
  destruct (Z.eqb_spec (Client.run p) 0); [contradiction | reflexivity].
Qed.

(** What the server finds in its buffer after a datagram that holds a whole
    header. *)
Lemma recvfrom_header a buf d :
  (Wire.sizeof_hdr a <= List.length d)%nat ->
  let buf' := snd (Server.recvfrom buf (Server.Datagram d)) in
  Wire.get_seq a buf' = Wire.get_seq a d /\
  Wire.get_send_time_us a buf' = Wire.get_send_time_us a d.
Proof.
  intros Hd. simpl. pose proof (sizeof_hdr_le_buffer a).
  split; [apply get_seq_prefix | apply get_send_time_us_prefix]; lia.
Qed.

(** C2, as the claim states it, fails: a little-endian client builds the
    header with sequence 1 and send time 1000; a big-endian server decodes
    the same bytes as sequence [2^24] and a send time far from 1000. *)
Lemma cross_endian_round_trip_fails :
  let d := Scenario.first_datagram Scenario.le_packed in
  let buf := snd (Server.recvfrom (Server.stack Scenario.server_env)
                    (Server.Datagram d)) in
  Wire.get_seq Scenario.le_packed d = 1 /\
  Wire.get_send_time_us Scenario.le_packed d = 1000 /\
  Wire.get_seq Scenario.be_packed buf = 16777216 /\
  Wire.get_seq Scenario.be_packed buf <> 1 /\
  Wire.get_send_time_us Scenario.be_packed buf <> 1000.
Proof.
  vm_compute. repeat split; try reflexivity; discriminate.
Qed.

(** C2 (amended): when the client and the server agree on byte order and
    header layout, a header the client builds with sequence [s] and send time
    [t] and sends as the leading bytes of its datagram is decoded by the
    server, from its receive buffer, as the same [s] and [t]. *)
Theorem header_round_trip ca sa p s t buf :
  byte_order sa = byte_order ca -> hdr_layout sa = hdr_layout ca ->
  Client.st p = Running -> Client.run p <> 0 ->
  List.length (Client.hdr p) = Wire.datagram_size ca ->
  0 <= s < 2 ^ 32 -> 0 <= t < 2 ^ 64 ->
  Wire.get_seq ca (Client.hdr p) = u32 (s - 1) ->
  let p' := Client.step ca p (Client.Iterate t) in
  let d := Client.hdr p' in
  Client.sent p' = Client.sent p ++ [d] /\
  Wire.get_seq ca d = s /\
  Wire.get_send_time_us ca d = t /\
  let buf' := snd (Server.recvfrom buf (Server.Datagram d)) in
  Wire.get_seq sa buf' = s /\ Wire.get_send_time_us sa buf' = t.
Proof.
  intros Hbo Hlay Hst Hrun Hlen Hs Ht Hprev. cbv zeta.
  rewrite (abi_eq sa ca Hbo Hlay).
  rewrite client_step_running by assumption.
  assert (Hseq : Wire.get_seq ca (Client.hdr (Client.body ca t p)) = s).
  { rewrite body_seq, Hprev, u32_succ by exact Hlen.
    replace (s - 1 + 1) with s by lia. unfold u32. apply Z.mod_small. exact Hs. }
  assert (Htime : Wire.get_send_time_us ca (Client.hdr (Client.body ca t p)) = t).
  { rewrite body_send_time by exact Hlen. apply u64_small. exact Ht. }
  assert (Hd : (Wire.sizeof_hdr ca <=
                List.length (Client.hdr (Client.body ca t p)))%nat).
  { rewrite body_hdr_length by exact Hlen. apply datagram_size_ge_sizeof. }
  destruct (recvfrom_header ca buf _ Hd) as [Hr1 Hr2].
  split; [apply body_sent; exact Hlen | ].
  split; [exact Hseq | ].
  split; [exact Htime | ].
  rewrite Hr1, Hr2. auto.
Qed.

Lemma header_round_trip_witness :
  let a := Scenario.le_packed in
  let p := Client.start a (Scenario.client_env a) in
  let p' := Client.step a p (Client.Iterate 1000) in
  let buf' := snd (Server.recvfrom (Server.stack Scenario.server_env)
                     (Server.Datagram (Client.hdr p'))) in
  (byte_order a = byte_order a /\ hdr_layout a = hdr_layout a /\
   Client.st p = Running /\ Client.run p <> 0 /\
   List.length (Client.hdr p) = Wire.datagram_size a /\
   0 <= 1 < 2 ^ 32 /\ 0 <= 1000 < 2 ^ 64 /\
   Wire.get_seq a (Client.hdr p) = u32 (1 - 1)) /\
  Wire.get_seq a buf' = 1 /\ Wire.get_send_time_us a buf' = 1000.
Proof.
  cbv zeta.
  assert (H3 : Client.st (Client.start Scenario.le_packed
                 (Scenario.client_env Scenario.le_packed)) = Running)
    by reflexivity.
  assert (H4 : Client.run (Client.start Scenario.le_packed
                 (Scenario.client_env Scenario.le_packed)) <> 0)
    by (vm_compute; discriminate).
  assert (H5 : List.length (Client.hdr (Client.start Scenario.le_packed
                 (Scenario.client_env Scenario.le_packed))) =
               Wire.datagram_size Scenario.le_packed)
    by reflexivity.
  assert (H6 : 0 <= 1 < 2 ^ 32) by lia.
  assert (H7 : 0 <= 1000 < 2 ^ 64) by lia.
  assert (H8 : Wire.get_seq Scenario.le_packed
                 (Client.hdr (Client.start Scenario.le_packed
                    (Scenario.client_env Scenario.le_packed))) = u32 (1 - 1))
    by reflexivity.
  pose proof (header_round_trip Scenario.le_packed Scenario.le_packed _ 1 1000
                (Server.stack Scenario.server_env)
                eq_refl eq_refl H3 H4 H5 H6 H7 H8) as H.
  cbv zeta in H. destruct H as (_ & _ & _ & Hs & Ht).
  repeat split; first [assumption | reflexivity | lia].
Defined.

(** ** C3: lossless, in-order delivery *)

Lemma nth_error_map_combine {A B C} (f : A * B -> C) (l1 : list A) :
  forall (l2 : list B) i x y,
    nth_error l1 i = Some x -> nth_error l2 i = Some y ->
    nth_error (map f (List.combine l1 l2)) i = Some (f (x, y)).
Proof.
  induction l1 as [ | h1 l1 IH]; intros l2 i x y H1 H2.
  - destruct i; discriminate.
  - destruct l2 as [ | h2 l2]; [destruct i; discriminate | ].
    destruct i as [ | i]; simpl in *.
    + injection H1 as <-. injection H2 as <-. reflexivity.
    + apply IH; assumption.
Qed.

Lemma seq_numbered_lengths a ds :
  seq_numbered a ds ->
  Forall (fun d => (Wire.sizeof_hdr a <= List.length d)%nat) ds.
Proof.
  intros H. apply Forall_forall. intros d Hin.
  destruct (In_nth_error _ _ Hin) as [i Hi].
  destruct (H i d Hi) as [Hlen _]. rewrite Hlen. apply datagram_size_ge_sizeof.
Qed.

(** C3, as the claim states it, fails: a little-endian client sends one
    datagram, with sequence 1; a big-endian server receives exactly that
    datagram and writes one line, whose sequence is [2^24]. *)
Lemma cross_endian_log_sequence_differs :
  let c := Client.main Scenario.le_packed
             (Scenario.client_env Scenario.le_packed) [Client.Iterate 1000] in
  let s := Server.main Scenario.be_packed Scenario.server_env
             (Server.deliver (Client.sent c) [1500]) in
  List.length (Client.sent c) = 1%nat /\
  Wire.get_seq Scenario.le_packed (nth 0 (Client.sent c) []) = 1 /\
  List.length (Server.recv_log s) = 1%nat /\
  Server.recv_log s = [Server.record_line 16777216 1728537831980139996] /\
  forall lat, Server.recv_log s <> [Server.record_line 1 lat].
Proof.
  vm_compute. repeat split; try reflexivity.
  intros lat H. injection H as H. discriminate H.
Qed.

Lemma get_seq_byte_order sa ca mem :
  byte_order sa = byte_order ca -> Wire.get_seq sa mem = Wire.get_seq ca mem.
Proof. intros H. unfold Wire.get_seq. rewrite H. reflexivity. Qed.

Lemma sizeof_hdr_le_datagram_size sa ca :
  (Wire.sizeof_hdr sa <= Wire.datagram_size ca)%nat.
Proof.
  unfold Wire.datagram_size, Wire.payload_size.
  destruct (sizeof_hdr_cases sa) as [-> | ->];
    destruct (sizeof_hdr_cases ca) as [-> | ->]; lia.
Qed.

Lemma seq_numbered_lengths_any ca sa ds :
  seq_numbered ca ds ->
  Forall (fun d => (Wire.sizeof_hdr sa <= List.length d)%nat) ds.
Proof.
  intros H. apply Forall_forall. intros d Hin.
  destruct (In_nth_error _ _ Hin) as [i Hi].
  destruct (H i d Hi) as [Hlen _]. rewrite Hlen.
  apply sizeof_hdr_le_datagram_size.
Qed.

(** C3 (amended): when the client and the server have the same byte
    order and the server receives, in order, exactly the [N] datagrams the
    client sent, the server writes exactly [N] lines; the [i]-th line
    carries the sequence of the [i]-th datagram sent, which is [i] modulo
    [2^32] (so 1 through [N] while [N < 2^32]), and the latency the server
    computes from the send time it reads in that datagram.  The header
    layouts of the two hosts may differ. *)
Theorem lossless_in_order_log ca sa e evs sclocks sp :
  byte_order sa = byte_order ca ->
  List.length (Client.heap e) = Wire.datagram_size ca ->
  Server.st sp = Running -> Server.run sp <> 0 ->
  let ds := Client.sent (Client.main ca e evs) in
  List.length sclocks = List.length ds ->
  let sp' := Server.exec sa sp (Server.deliver ds sclocks) in
  let lines :=
    map (fun dc => Server.record_line (Wire.get_seq ca (fst dc))
                     (Server.latency (u64 (snd dc))
                        (Wire.get_send_time_us sa (fst dc))))
        (List.combine ds sclocks) in
  Server.recv_log sp' = Server.recv_log sp ++ lines /\
  List.length lines = List.length ds /\
  forall i d now,
    nth_error ds i = Some d -> nth_error sclocks i = Some now ->
    Wire.get_seq ca d = u32 (Z.of_nat i + 1) /\
    (Z.of_nat i + 1 < 2 ^ 32 -> Wire.get_seq ca d = Z.of_nat i + 1) /\
    nth_error lines i =
      Some (Server.record_line (Wire.get_seq ca d)
              (Server.latency (u64 now) (Wire.get_send_time_us sa d))).
Proof.
  intros Hbo Hheap Hst Hrun ds Hclocks. cbv zeta.
  assert (Hinv : seq_numbered ca ds).
  { apply (client_inv_exec ca evs (Client.start ca e)).
    apply client_inv_start. exact Hheap. }
  destruct (server_exec_deliver sa ds sclocks sp Hst Hrun
              (seq_numbered_lengths_any ca sa ds Hinv)) as (_ & _ & _ & Hlog).
  split.
  - rewrite Hlog. f_equal. apply map_ext. intros dc.
    unfold Server.line_of. rewrite (get_seq_byte_order sa ca _ Hbo). reflexivity.
  - split.
    + rewrite length_map, length_combine. lia.
    + intros i d now Hd Hnow. destruct (Hinv i d Hd) as [_ Hseq].
      split; [exact Hseq | ].
      split.
      * intros Hsmall. rewrite Hseq. unfold u32. apply Z.mod_small. lia.
      * apply (nth_error_map_combine
                 (fun dc => Server.record_line (Wire.get_seq ca (fst dc))
                              (Server.latency (u64 (snd dc))
                                 (Wire.get_send_time_us sa (fst dc)))));
          assumption.
Qed.

Lemma lossless_in_order_log_witness :
  let ca := Scenario.le_packed in
  let sa := Scenario.le_aligned in
  let e := Scenario.client_env ca in
  let evs := [Client.Iterate 1000; Client.Iterate 101000; Client.Iterate 201000] in
  let sclocks := [1500; 101400; 200000] in
  let sp := Server.start Scenario.server_env in
  let ds := Client.sent (Client.main ca e evs) in
  (byte_order sa = byte_order ca /\
   List.length (Client.heap e) = Wire.datagram_size ca /\
   Server.st sp = Running /\ Server.run sp <> 0 /\
   List.length sclocks = List.length ds) /\
  Server.recv_log (Server.exec sa sp (Server.deliver ds sclocks)) =
    [Server.record_line 1 1500; Server.record_line 2 101400;
     Server.record_line 3 200000] /\
  Server.recv_log (Server.exec ca sp (Server.deliver ds sclocks)) =
    [Server.record_line 1 500; Server.record_line 2 400; Server.record_line 3 0].
Proof.
  cbv zeta.
  assert (H3 : List.length (Client.heap (Scenario.client_env Scenario.le_packed)) =
               Wire.datagram_size Scenario.le_packed) by reflexivity.
  assert (H4 : Server.st (Server.start Scenario.server_env) = Running)
    by reflexivity.
  assert (H5 : Server.run (Server.start Scenario.server_env) <> 0)
    by (vm_compute; discriminate).
  assert (H6 : List.length [1500; 101400; 200000] =
               List.length (Client.sent (Client.main Scenario.le_packed
                 (Scenario.client_env Scenario.le_packed)
                 [Client.Iterate 1000; Client.Iterate 101000;
                  Client.Iterate 201000]))) by reflexivity.
  pose proof (lossless_in_order_log Scenario.le_packed Scenario.le_aligned
                _ _ _ _ eq_refl H3 H4 H5 H6) as H.
  pose proof (lossless_in_order_log Scenario.le_packed Scenario.le_packed
                _ _ _ _ eq_refl H3 H4 H5 H6) as H'.
  cbv zeta in H, H'. destruct H as (Hlog & _ & _). destruct H' as (Hlog' & _ & _).
  split; [repeat split; first [assumption | reflexivity] | ].
  split; [rewrite Hlog | rewrite Hlog']; vm_compute; reflexivity.
Defined.

(** ** C4: size of the datagram and byte order on the wire *)

Lemma to_bytes_mod e n v : to_bytes e n (v mod 2 ^ (Z.of_nat n * 8)) = to_bytes e n v.
Proof. destruct e; simpl; rewrite <- le_split_mod; reflexivity. Qed.

Lemma seq_bytes_set_seq a v mem :
  Wire.seq_bytes (Wire.set_seq a v mem) = to_bytes (byte_order a) Wire.seq_size v.
Proof.
  unfold Wire.seq_bytes, Wire.set_seq. apply field_of_store.
  unfold Wire.seq_off. lia.
Qed.

Lemma send_time_bytes_set a v mem :
  (Wire.sizeof_hdr a <= List.length mem)%nat ->
  Wire.send_time_bytes a (Wire.set_send_time_us a v mem) =
  to_bytes (byte_order a) Wire.send_time_size v.
Proof.
  intros H. unfold Wire.send_time_bytes, Wire.set_send_time_us.
  apply field_of_store. pose proof (send_time_off_bounds a). lia.
Qed.

(** C4, as the claim states it, fails: the first datagram of a
    little-endian client carries the sequence 1 as the bytes 01 00 00 00 and
    the send time 1000 as e8 03 00 00 00 00 00 00; network byte order is
    00 00 00 01 and 00 00 00 00 00 00 03 e8. *)
Lemma little_endian_client_not_network_order :
  let a := Scenario.le_packed in
  let d := Scenario.first_datagram a in
  Wire.get_seq a d = 1 /\
  Wire.get_send_time_us a d = 1000 /\
  Wire.seq_bytes d = [Byte.x01; Byte.x00; Byte.x00; Byte.x00] /\
  Wire.network_order_seq 1 = [Byte.x00; Byte.x00; Byte.x00; Byte.x01] /\
  Wire.seq_bytes d <> Wire.network_order_seq (Wire.get_seq a d) /\
  Wire.send_time_bytes a d <>
    Wire.network_order_send_time (Wire.get_send_time_us a d).
Proof.
  vm_compute. repeat split; try reflexivity; discriminate.
Qed.

(** C4 (amended): every datagram the client sends is exactly
    [sizeof(header) + 100] bytes long, and its two header fields are on the
    wire in the byte order of the sending host: network byte order on a
    big-endian host, the reverse of it on a little-endian host.  The server
    reads them in its own byte order, and gets the values sent when it agrees
    with the client on byte order and header layout. *)
Theorem datagram_size_and_byte_order ca p clock :
  Client.st p = Running -> Client.run p <> 0 ->
  List.length (Client.hdr p) = Wire.datagram_size ca ->
  let p' := Client.step ca p (Client.Iterate clock) in
  let d := Client.hdr p' in
  let s := u32 (Wire.get_seq ca (Client.hdr p) + 1) in
  let t := u64 clock in
  Client.sent p' = Client.sent p ++ [d] /\
  List.length d = (Wire.sizeof_hdr ca + 100)%nat /\
  Wire.get_seq ca d = s /\ Wire.get_send_time_us ca d = t /\
  Wire.seq_bytes d = to_bytes (byte_order ca) 4 s /\
  Wire.send_time_bytes ca d = to_bytes (byte_order ca) 8 t /\
  (byte_order ca = BigEndian ->
   Wire.seq_bytes d = Wire.network_order_seq s /\
   Wire.send_time_bytes ca d = Wire.network_order_send_time t) /\
  (byte_order ca = LittleEndian ->
   Wire.seq_bytes d = rev (Wire.network_order_seq s) /\
   Wire.send_time_bytes ca d = rev (Wire.network_order_send_time t)) /\
  forall sa buf,
    byte_order sa = byte_order ca -> hdr_layout sa = hdr_layout ca ->
    let buf' := snd (Server.recvfrom buf (Server.Datagram d)) in
    Wire.get_seq sa buf' = s /\ Wire.get_send_time_us sa buf' = t.
Proof.
  intros Hst Hrun Hlen. cbv zeta.
  rewrite client_step_running by assumption.
  pose proof (datagram_size_ge_sizeof ca) as Hsz.
  assert (Hb1 : Wire.seq_bytes (Client.hdr (Client.body ca clock p)) =
                to_bytes (byte_order ca) 4
                  (u32 (Wire.get_seq ca (Client.hdr p) + 1))).
  { simpl. rewrite seq_bytes_set_send_time_us by (rewrite length_set_seq; lia).
    rewrite seq_bytes_set_seq. symmetry. apply (to_bytes_mod _ 4). }
  assert (Hb2 : Wire.send_time_bytes ca (Client.hdr (Client.body ca clock p)) =
                to_bytes (byte_order ca) 8 (u64 clock)).
  { simpl. apply send_time_bytes_set. rewrite length_set_seq; lia. }
  assert (Hd : (Wire.sizeof_hdr ca <=
                List.length (Client.hdr (Client.body ca clock p)))%nat).
  { rewrite body_hdr_length by exact Hlen. exact Hsz. }
  split; [apply body_sent; exact Hlen | ].
  split; [rewrite body_hdr_length by exact Hlen; reflexivity | ].
  split; [apply body_seq; exact Hlen | ].
  split; [apply body_send_time; exact Hlen | ].
  split; [exact Hb1 | ].
  split; [exact Hb2 | ].
  split; [ | split].
  - intros Hbe. rewrite Hb1, Hb2, Hbe. split; reflexivity.
  - intros Hle. rewrite Hb1, Hb2, Hle.
    unfold Wire.network_order_seq, Wire.network_order_send_time, to_bytes.
    rewrite !rev_involutive. split; reflexivity.
  - intros sa buf Hbo Hlay. rewrite (abi_eq sa ca Hbo Hlay).
    destruct (recvfrom_header ca buf _ Hd) as [Hr1 Hr2].
    rewrite Hr1, Hr2. split.
    + apply body_seq. exact Hlen.
    + apply body_send_time. exact Hlen.
Qed.

Lemma datagram_size_and_byte_order_witness :
  let a := Scenario.be_packed in
  let p := Client.start a (Scenario.client_env a) in
  let d := Client.hdr (Client.step a p (Client.Iterate 1000)) in
  (Client.st p = Running /\ Client.run p <> 0 /\
   List.length (Client.hdr p) = Wire.datagram_size a) /\
  List.length d = 112%nat /\
  Wire.seq_bytes d = Wire.network_order_seq 1 /\
  Wire.send_time_bytes a d = Wire.network_order_send_time 1000.
Proof.
  cbv zeta.
  assert (H1 : Client.st (Client.start Scenario.be_packed
                 (Scenario.client_env Scenario.be_packed)) = Running)
    by reflexivity.
  assert (H2 : Client.run (Client.start Scenario.be_packed
                 (Scenario.client_env Scenario.be_packed)) <> 0)
    by (vm_compute; discriminate).
  assert (H3 : List.length (Client.hdr (Client.start Scenario.be_packed
                 (Scenario.client_env Scenario.be_packed))) =
               Wire.datagram_size Scenario.be_packed) by reflexivity.
  pose proof (datagram_size_and_byte_order Scenario.be_packed _ 1000 H1 H2 H3)
    as H.
  cbv zeta in H. destruct H as (_ & Hlen & _ & _ & _ & _ & Hbe & _).
  destruct (Hbe eq_refl) as [Hs Ht].
  repeat split; first [assumption | exact Hlen | exact Hs | exact Ht].
Defined.

(** ** C5: short datagrams are dropped *)

(** C5: for every received datagram shorter than the header, the server
    writes no line to the log and nothing to standard error, and stays in
    its loop. *)
Theorem short_datagram_dropped a p d clock :
  Server.st p = Running -> Server.run p <> 0 ->
  (List.length d < Wire.sizeof_hdr a)%nat ->
  let p' := Server.step a p (Server.Iterate (Server.Datagram d) clock) in
  Server.recv_log p' = Server.recv_log p /\
  Server.err p' = Server.err p /\
  Server.st p' = Running /\
  Server.run p' = Server.run p.
Proof.
  intros Hst Hrun Hd. cbv zeta.
  rewrite server_step_running by assumption.
  rewrite body_drops by exact Hd. simpl. auto.
Qed.

Lemma short_datagram_dropped_witness :
  let a := Scenario.le_packed in
  let p := Server.start Scenario.server_env in
  let d := [Byte.x01; Byte.x02; Byte.x03; Byte.x04] in
  (Server.st p = Running /\ Server.run p <> 0 /\
   (List.length d < Wire.sizeof_hdr a)%nat) /\
  Server.recv_log (Server.step a p (Server.Iterate (Server.Datagram d) 1500)) = [] /\
  Server.st (Server.step a p (Server.Iterate (Server.Datagram d) 1500)) = Running.
Proof.
  cbv zeta.
  assert (H1 : Server.st (Server.start Scenario.server_env) = Running)
    by reflexivity.
  assert (H2 : Server.run (Server.start Scenario.server_env) <> 0)
    by (vm_compute; discriminate).
  assert (H3 : (List.length [Byte.x01; Byte.x02; Byte.x03; Byte.x04] <
                Wire.sizeof_hdr Scenario.le_packed)%nat)
    by (vm_compute; lia).
  pose proof (short_datagram_dropped Scenario.le_packed _ _ 1500 H1 H2 H3) as H.
  cbv zeta in H. destruct H as (Hlog & _ & Hrunning & _).
  repeat split; first [assumption | exact Hlog | exact Hrunning].
Defined.

(** ** C9: a failed receive *)

(** C9 fails on the code: the server has logged one datagram (sequence 1,
    sent at 1000, received at 1500); the next [recvfrom] fails and returns
    -1.  The comparison [n >= sizeof(stgen_hdr_t)] converts -1 to [size_t],
    so the check passes and the server writes a second line, from the header
    of the previous datagram that is still in the buffer.  The same happens
    in every state of the loop: a failed receive appends the line of
    whatever the buffer holds. *)
Theorem recv_error_logs_stale_header :
  let a := Scenario.le_packed in
  let received := Server.deliver [Scenario.first_datagram a] [1500] in
  let before := Server.main a Scenario.server_env received in
  let after := Server.main a Scenario.server_env
                 (received ++ [Server.Iterate Server.RecvError 2000]) in
  (Server.st before = Running /\
   Server.recv_log before = [Server.record_line 1 500] /\
   to_size_t (-1) = 2 ^ 64 - 1 /\
   Server.st after = Running /\
   Server.recv_log after = [Server.record_line 1 500; Server.record_line 1 1000]) /\
  forall b p clock,
    Server.recv_log (Server.body b Server.RecvError clock p) =
    Server.recv_log p ++ [Server.line_of b clock (Server.buffer p)].
Proof.
  split.
  - vm_compute. repeat split; reflexivity.
  - intros b p clock. rewrite body_recv_error. reflexivity.
Qed.

(** ** C10: the length is the only thing checked *)




(** ** C6: the sequence counter and the client iteration *)

(** C6: the sequence of the first datagram sent is 1; each later datagram
    carries the sequence of the one before it plus 1, modulo [2^32]; the
    [i]-th datagram of a run therefore carries [i] modulo [2^32], and the
    counter is never reset.  One iteration increments the sequence, stores
    the current time in [send_time_us], sends the header with the 100-byte
    payload, and sleeps 100000 microseconds. *)
Theorem client_sequence_counter a e evs :
  List.length (Client.heap e) = Wire.datagram_size a ->
  let p := Client.main a e evs in
  (forall d, nth_error (Client.sent p) 0 = Some d -> Wire.get_seq a d = 1) /\
  (forall i d d',
     nth_error (Client.sent p) i = Some d ->
     nth_error (Client.sent p) (S i) = Some d' ->
     Wire.get_seq a d' = u32 (Wire.get_seq a d + 1)) /\
  (forall i d,
     nth_error (Client.sent p) i = Some d ->
     Wire.get_seq a d = (Z.of_nat i + 1) mod 2 ^ 32) /\
  (Client.st p = Running -> Client.run p <> 0 -> forall clock,
     let p' := Client.step a p (Client.Iterate clock) in
     let d := Client.hdr p' in
     Wire.get_seq a d = (Wire.get_seq a (Client.hdr p) + 1) mod 2 ^ 32 /\
     Wire.get_send_time_us a d = u64 clock /\
     Client.sent p' = Client.sent p ++ [d] /\
     List.length d = (Wire.sizeof_hdr a + 100)%nat /\
     Client.slept p' = Client.slept p ++ [100000] /\
     Client.st p' = Running).
Proof.
  intros Hheap p.
  assert (Hinv : client_inv a p).
  { apply client_inv_exec. apply client_inv_start. exact Hheap. }
  destruct Hinv as [Hsent Hloop].
  split; [ | split; [ | split] ].
  - intros d Hd. destruct (Hsent 0%nat d Hd) as [_ H]. exact H.
  - intros i d d' Hd Hd'.
    destruct (Hsent i d Hd) as [_ H]. destruct (Hsent (S i) d' Hd') as [_ H'].
    rewrite H', H, u32_succ. f_equal. lia.
  - intros i d Hd. destruct (Hsent i d Hd) as [_ H]. exact H.
  - intros Hst Hrun clock. cbv zeta.
    destruct (Hloop Hst) as [Hlen _].
    rewrite client_step_running by assumption.
    split; [apply body_seq; exact Hlen | ].
    split; [apply body_send_time; exact Hlen | ].
    split; [apply body_sent; exact Hlen | ].
    split; [rewrite body_hdr_length by exact Hlen; reflexivity | ].
    split; reflexivity.
Qed.

Lemma client_sequence_counter_witness :
  let a := Scenario.le_aligned in
  let e := Scenario.client_env a in
  let p := Client.main a e [Client.Iterate 1000; Client.Iterate 101000] in
  List.length (Client.heap e) = Wire.datagram_size a /\
  Wire.get_seq a (nth 0 (Client.sent p) []) = 1 /\
  Wire.get_seq a (nth 1 (Client.sent p) []) = 2 /\
  Client.slept (Client.step a p (Client.Iterate 201000)) = [100000; 100000; 100000].
Proof.
  cbv zeta.
  assert (H0 : List.length (Client.heap (Scenario.client_env Scenario.le_aligned)) =
               Wire.datagram_size Scenario.le_aligned) by reflexivity.
  pose proof (client_sequence_counter Scenario.le_aligned _
                [Client.Iterate 1000; Client.Iterate 101000] H0) as H.
  cbv zeta in H. destruct H as (Hfirst & _ & Hall & Hiter).
  split; [exact H0 | ].
  split; [apply Hfirst; reflexivity | ].
  split; [apply (Hall 1%nat); reflexivity | ].
  assert (Hst : Client.st (Client.main Scenario.le_aligned
                  (Scenario.client_env Scenario.le_aligned)
                  [Client.Iterate 1000; Client.Iterate 101000]) = Running)
    by reflexivity.
  assert (Hrun : Client.run (Client.main Scenario.le_aligned
                  (Scenario.client_env Scenario.le_aligned)
                  [Client.Iterate 1000; Client.Iterate 101000]) <> 0)
    by (vm_compute; discriminate).
  destruct (Hiter Hst Hrun 201000) as (_ & _ & _ & _ & Hslept & _).
  rewrite Hslept. reflexivity.
Defined.

(** ** C7: fatal errors at startup *)

Lemma argc_positional (l : list string) :
  Z.of_nat (List.length l) <= Z.of_nat (List.length (tl l)) + 1.
Proof. destruct l; simpl List.length; lia. Qed.

Lemma argc_positional_ge (l : list string) :
  Z.of_nat (List.length (tl l)) + 1 <= Z.of_nat (List.length l) \/
  List.length (tl l) = 0%nat.
Proof. destruct l; simpl List.length; [right; reflexivity | left; lia]. Qed.

Lemma client_start_usage a e :
  (List.length (tl (Client.argv e)) < 3)%nat ->
  Client.start a e =
  {| Client.st := Exited 1; Client.run := 1; Client.hdr := [];
     Client.sent := []; Client.slept := [];
     Client.err := Client.usage (Client.argv e);
     Client.hdr_freed := false; Client.sock_closed := false |}.
Proof.
  intros H. unfold Client.start. pose proof (argc_positional (Client.argv e)).
  destruct (Z.ltb_spec (Z.of_nat (List.length (Client.argv e))) 4);
    [reflexivity | lia].
Qed.

Lemma server_start_usage e :
  (List.length (tl (Server.argv e)) < 2)%nat ->
  Server.start e = Server.failed (Server.usage (Server.argv e)).
Proof.
  intros H. unfold Server.start. pose proof (argc_positional (Server.argv e)).
  destruct (Z.ltb_spec (Z.of_nat (List.length (Server.argv e))) 3);
    [reflexivity | lia].
Qed.

Lemma server_start_bind_failed e :
  (2 <= List.length (tl (Server.argv e)))%nat ->
  Server.bind_result e < 0 ->
  Server.start e = Server.failed (perror "bind failed" (Server.errno_text e)).
Proof.
  intros H Hb. unfold Server.start.
  destruct (argc_positional_ge (Server.argv e)); [ | lia].
  destruct (Z.ltb_spec (Z.of_nat (List.length (Server.argv e))) 3); [lia | ].
  destruct (Z.ltb_spec (Server.bind_result e) 0); [reflexivity | lia].
Qed.

Lemma server_start_fopen_failed e :
  (2 <= List.length (tl (Server.argv e)))%nat ->
  0 <= Server.bind_result e ->
  Server.fopen_ok e = false ->
  Server.start e = Server.failed (perror "recv.log" (Server.errno_text e)).
Proof.
  intros H Hb Hf. unfold Server.start.
  destruct (argc_positional_ge (Server.argv e)); [ | lia].
  destruct (Z.ltb_spec (Z.of_nat (List.length (Server.argv e))) 3); [lia | ].
  destruct (Z.ltb_spec (Server.bind_result e) 0); [lia | ].
  rewrite Hf. reflexivity.
Qed.

Lemma server_main_failed a e evs msg :
  Server.start e = Server.failed msg -> Server.main a e evs = Server.failed msg.
Proof.
  intros H. unfold Server.main. rewrite H.
  apply (server_exec_exited a evs _ 1). reflexivity.
Qed.

(** C7: with fewer than 3 (client) or 2 (server) positional arguments, and
    when the server's [bind] or [fopen] fails, the process writes one line
    to standard error and exits with status 1, whatever happens afterwards;
    it sends and logs nothing.  The line is ["Usage: <argv[0]> <ip> <port>
    <id>"] for the client, ["Usage: <argv[0]> <ip> <port>"] for the server,
    ["bind failed: <error>"] and ["recv.log: <error>"].  Once a process has
    entered its loop, its only exit status is 0. *)
Theorem fatal_startup :
  (forall a e evs,
     (List.length (tl (Client.argv e)) < 3)%nat ->
     let p := Client.main a e evs in
     Client.st p = Exited 1 /\
     Client.err p =
       ("Usage: " ++ nth 0 (Client.argv e) "(null)" ++ " <ip> <port> <id>"
          ++ String "010" EmptyString)%string /\
     Client.sent p = []) /\
  (forall a e evs,
     (List.length (tl (Server.argv e)) < 2)%nat ->
     let p := Server.main a e evs in
     Server.st p = Exited 1 /\
     Server.err p =
       ("Usage: " ++ nth 0 (Server.argv e) "(null)" ++ " <ip> <port>"
          ++ String "010" EmptyString)%string /\
     Server.recv_log p = []) /\
  (forall a e evs,
     (2 <= List.length (tl (Server.argv e)))%nat ->
     Server.bind_result e < 0 ->
     let p := Server.main a e evs in
     Server.st p = Exited 1 /\
     Server.err p =
       ("bind failed: " ++ Server.errno_text e ++ String "010" EmptyString)%string /\
     Server.recv_log p = []) /\
  (forall a e evs,
     (2 <= List.length (tl (Server.argv e)))%nat ->
     0 <= Server.bind_result e ->
     Server.fopen_ok e = false ->
     let p := Server.main a e evs in
     Server.st p = Exited 1 /\
     Server.err p =
       ("recv.log: " ++ Server.errno_text e ++ String "010" EmptyString)%string /\
     Server.recv_log p = []) /\
  (forall a e evs,
     Client.st (Client.start a e) = Running ->
     Client.st (Client.main a e evs) = Running \/
     Client.st (Client.main a e evs) = Exited 0) /\
  (forall a e evs,
     Server.st (Server.start e) = Running ->
     Server.st (Server.main a e evs) = Running \/
     Server.st (Server.main a e evs) = Exited 0).
Proof.
  split; [ | split; [ | split; [ | split; [ | split] ] ] ].
  - intros a e evs H. cbv zeta. unfold Client.main.
    rewrite (client_start_usage a e H).
    rewrite (client_exec_exited a evs _ 1) by reflexivity. simpl. auto.
  - intros a e evs H. cbv zeta.
    rewrite (server_main_failed a e evs _ (server_start_usage e H)).
    simpl. auto.
  - intros a e evs H Hb. cbv zeta.
    rewrite (server_main_failed a e evs _ (server_start_bind_failed e H Hb)).
    simpl. auto.
  - intros a e evs H Hb Hf. cbv zeta.
    rewrite (server_main_failed a e evs _ (server_start_fopen_failed e H Hb Hf)).
    simpl. auto.
  - intros a e evs H. unfold Client.main. apply client_exec_status. auto.
  - intros a e evs H. unfold Server.main. apply server_exec_status. auto.
Qed.

Lemma fatal_startup_witness :
  let ce := {| Client.argv := ["client"; "127.0.0.1"; "9000"]%string;
               Client.heap := [] |} in
  let su := {| Server.argv := ["server"; "127.0.0.1"]%string;
               Server.bind_result := 0;
               Server.fopen_ok := true;
               Server.errno_text := "Success"%string;
               Server.stack := [] |} in
  let sb := {| Server.argv := ["server"; "127.0.0.1"; "9000"]%string;
               Server.bind_result := -1;
               Server.fopen_ok := true;
               Server.errno_text := "Address already in use"%string;
               Server.stack := [] |} in
  let sf := {| Server.argv := ["server"; "127.0.0.1"; "9000"]%string;
               Server.bind_result := 0;
               Server.fopen_ok := false;
               Server.errno_text := "Permission denied"%string;
               Server.stack := [] |} in
  ((List.length (tl (Client.argv ce)) < 3)%nat /\
   (List.length (tl (Server.argv su)) < 2)%nat /\
   ((2 <= List.length (tl (Server.argv sb)))%nat /\ Server.bind_result sb < 0) /\
   ((2 <= List.length (tl (Server.argv sf)))%nat /\ 0 <= Server.bind_result sf /\
    Server.fopen_ok sf = false)) /\
  (Client.st (Client.main Scenario.le_packed ce [Client.Iterate 5]) = Exited 1 /\
   Client.err (Client.main Scenario.le_packed ce [Client.Iterate 5]) =
     String.append "Usage: client <ip> <port> <id>" (String "010" EmptyString)) /\
  (Server.st (Server.main Scenario.le_packed su
                [Server.Iterate Server.RecvError 5]) = Exited 1 /\
   Server.err (Server.main Scenario.le_packed su
                 [Server.Iterate Server.RecvError 5]) =
     String.append "Usage: server <ip> <port>" (String "010" EmptyString)) /\
  (Server.st (Server.main Scenario.le_packed sb
                [Server.Iterate Server.RecvError 5]) = Exited 1 /\
   Server.err (Server.main Scenario.le_packed sb
                 [Server.Iterate Server.RecvError 5]) =
     String.append "bind failed: Address already in use"
       (String "010" EmptyString)) /\
  (Server.st (Server.main Scenario.le_packed sf
                [Server.Iterate Server.RecvError 5]) = Exited 1 /\
   Server.err (Server.main Scenario.le_packed sf
                 [Server.Iterate Server.RecvError 5]) =
     String.append "recv.log: Permission denied" (String "010" EmptyString)).
Proof.
  cbv zeta.
  destruct fatal_startup as (Hc & Hu & Hb & Hf & _).
  assert (H1 : (List.length (tl ["client"; "127.0.0.1"; "9000"]%string) < 3)%nat)
    by (simpl; lia).
  assert (H2 : (List.length (tl ["server"; "127.0.0.1"]%string) < 2)%nat)
    by (simpl; lia).
  assert (H3 : (2 <= List.length (tl ["server"; "127.0.0.1"; "9000"]%string))%nat)
    by (simpl; lia).
  assert (H4 : -1 < 0) by lia.
  assert (H5 : 0 <= 0) by lia.
  pose proof (Hc Scenario.le_packed
                {| Client.argv := ["client"; "127.0.0.1"; "9000"]%string;
                   Client.heap := [] |} [Client.Iterate 5] H1) as Hc1.
  pose proof (Hu Scenario.le_packed
                {| Server.argv := ["server"; "127.0.0.1"]%string;
                   Server.bind_result := 0;
                   Server.fopen_ok := true;
                   Server.errno_text := "Success"%string;
                   Server.stack := [] |}
                [Server.Iterate Server.RecvError 5] H2) as Hu1.
  pose proof (Hb Scenario.le_packed
                {| Server.argv := ["server"; "127.0.0.1"; "9000"]%string;
                   Server.bind_result := -1;
                   Server.fopen_ok := true;
                   Server.errno_text := "Address already in use"%string;
                   Server.stack := [] |}
                [Server.Iterate Server.RecvError 5] H3 H4) as Hb1.
  pose proof (Hf Scenario.le_packed
                {| Server.argv := ["server"; "127.0.0.1"; "9000"]%string;
                   Server.bind_result := 0;
                   Server.fopen_ok := false;
                   Server.errno_text := "Permission denied"%string;
                   Server.stack := [] |}
                [Server.Iterate Server.RecvError 5] H3 H5 eq_refl) as Hf1.
  cbv zeta in Hc1, Hu1, Hb1, Hf1.
  destruct Hc1 as (Hc1 & Hc2 & _). destruct Hu1 as (Hu1 & Hu2 & _).
  destruct Hb1 as (Hb1 & Hb2 & _). destruct Hf1 as (Hf1 & Hf2 & _).
  split; [repeat split; first [assumption | reflexivity] | ].
  split; [split; [exact Hc1 | exact Hc2] | ].
  split; [split; [exact Hu1 | exact Hu2] | ].
  split; [split; [exact Hb1 | exact Hb2] | ].
  split; [exact Hf1 | exact Hf2].
Defined.

(** ** C8: cooperative shutdown of the client *)

(** C8: a signal delivered to the running client clears the run flag and
    does nothing else; once the flag is clear, the next evaluation of the
    loop condition leaves the loop without sending, frees the packet buffer,
    closes the socket and returns 0, and nothing is sent afterwards. *)
Theorem cooperative_shutdown a p :
  Client.st p = Running ->
  (let q := Client.step a p Client.Signal in
   Client.run q = 0 /\ Client.st q = Running /\
   Client.sent q = Client.sent p /\
   Client.hdr_freed q = Client.hdr_freed p /\
   Client.sock_closed q = Client.sock_closed p) /\
  (Client.run p = 0 -> forall clock,
   let q := Client.step a p (Client.Iterate clock) in
   Client.st q = Exited 0 /\
   Client.sent q = Client.sent p /\
   Client.hdr_freed q = true /\
   Client.sock_closed q = true /\
   forall evs, Client.exec a q evs = q) /\
  (forall clock evs,
   let q := Client.exec a p (Client.Signal :: Client.Iterate clock :: evs) in
   Client.st q = Exited 0 /\
   Client.sent q = Client.sent p /\
   Client.hdr_freed q = true /\
   Client.sock_closed q = true).
Proof.
  intros Hst. split; [ | split].
  - cbv zeta. unfold Client.step. rewrite Hst. simpl. auto.
  - intros Hrun clock. cbv zeta.
    assert (Hq : Client.step a p (Client.Iterate clock) = Client.finish p).
    { unfold Client.step. rewrite Hst, Hrun. reflexivity. }
    rewrite Hq. simpl. repeat split.
    intros evs. apply (client_exec_exited a evs _ 0). reflexivity.
  - intros clock evs. cbv zeta. unfold Client.exec. simpl.
    assert (H1 : Client.step a p Client.Signal = Client.handle_sig p).
    { unfold Client.step. rewrite Hst. reflexivity. }
    assert (H2 : Client.step a (Client.handle_sig p) (Client.Iterate clock) =
                 Client.finish (Client.handle_sig p)).
    { unfold Client.step. simpl. rewrite Hst. reflexivity. }
    rewrite H1, H2.
    change (fold_left (Client.step a) evs ?x) with (Client.exec a x evs).
    rewrite (client_exec_exited a evs _ 0) by reflexivity.
    simpl. auto.
Qed.

Lemma cooperative_shutdown_witness :
  let a := Scenario.le_packed in
  let p := Client.main a (Scenario.client_env a)
             [Client.Iterate 1000; Client.Iterate 101000] in
  let q := Client.exec a p
             [Client.Signal; Client.Iterate 201000; Client.Iterate 301000] in
  Client.st p = Running /\
  Client.st q = Exited 0 /\
  List.length (Client.sent q) = 2%nat /\
  Client.hdr_freed q = true /\ Client.sock_closed q = true.
Proof.
  cbv zeta.
  assert (H1 : Client.st (Client.main Scenario.le_packed
                 (Scenario.client_env Scenario.le_packed)
                 [Client.Iterate 1000; Client.Iterate 101000]) = Running)
    by reflexivity.
  pose proof (cooperative_shutdown Scenario.le_packed _ H1) as (_ & _ & H).
  specialize (H 201000 [Client.Iterate 301000]). cbv zeta in H.
  destruct H as (Hst & Hsent & Hfree & Hclose).
  split; [exact H1 | ].
  split; [exact Hst | ].
  split; [rewrite Hsent; reflexivity | ].
  split; [exact Hfree | exact Hclose].
Defined.

(** * Further properties of the server *)

(** ** What one iteration can do to the log and to standard error *)

Lemma latency_lt now t : Server.latency now t < 2 ^ 63.
Proof.
  unfold Server.latency. cbv zeta. pose proof (to_int64_range (now - t)).
  destruct (Z.ltb_spec (to_int64 (now - t)) 0); lia.
Qed.

Lemma line_of_well_formed a clock buf : well_formed_line (Server.line_of a clock buf).
Proof.
  exists (Wire.get_seq a buf),
         (Server.latency (u64 clock) (Wire.get_send_time_us a buf)).
  split; [reflexivity | ].
  split; [apply get_seq_range | ].
  split; [split; [apply latency_nonneg | apply latency_lt] | ].
  apply record_line_one_line.
Qed.

Lemma server_body_frame a r clock p :
  let q := Server.body a r clock p in
  Server.run q = Server.run p /\ Server.err q = Server.err p /\
  Server.fp_closed q = Server.fp_closed p /\
  Server.sock_closed q = Server.sock_closed p /\
  exists more,
    Server.recv_log q = Server.recv_log p ++ more /\
    (List.length more <= 1)%nat /\ Forall well_formed_line more.
Proof.
  cbv zeta. unfold Server.body.
  destruct (Server.recvfrom (Server.buffer p) r) as [n buf].
  destruct (to_size_t n >=? Z.of_nat (Wire.sizeof_hdr a)); simpl;
    repeat (split; [reflexivity | ]).
  - exists [Server.line_of a clock buf].
    split; [reflexivity | split; [simpl; lia | ] ].
    constructor; [apply line_of_well_formed | constructor].
  - exists []. rewrite app_nil_r. split; [reflexivity | split; [simpl; lia | constructor] ].
Qed.

Lemma server_step_frame a p ev :
  let q := Server.step a p ev in
  Server.err q = Server.err p /\
  exists more,
    Server.recv_log q = Server.recv_log p ++ more /\
    (List.length more <= (if is_server_iterate ev then 1 else 0))%nat /\
    Forall well_formed_line more.
Proof.
  cbv zeta.
  assert (Hnil : forall q, Server.recv_log q = Server.recv_log p ->
            exists more, Server.recv_log q = Server.recv_log p ++ more /\
              (List.length more <= (if is_server_iterate ev then 1 else 0))%nat /\
              Forall well_formed_line more).
  { intros q Hq. exists []. rewrite app_nil_r.
    split; [exact Hq | split; [simpl; lia | constructor] ]. }
  unfold Server.step. destruct (Server.st p).
  - destruct ev as [ | r clock].
    + split; [reflexivity | apply Hnil; reflexivity].
    + destruct (Server.run p =? 0).
      * split; [reflexivity | apply Hnil; reflexivity].
      * destruct (server_body_frame a r clock p) as (_ & He & _ & _ & Hm).
        split; [exact He | exact Hm].
  - split; [reflexivity | apply Hnil; reflexivity].
Qed.

Lemma server_exec_app a p evs1 evs2 :
  Server.exec a p (evs1 ++ evs2) = Server.exec a (Server.exec a p evs1) evs2.
Proof. unfold Server.exec. apply fold_left_app. Qed.

Lemma server_exec_frame a evs : forall p,
  let q := Server.exec a p evs in
  Server.err q = Server.err p /\
  exists more,
    Server.recv_log q = Server.recv_log p ++ more /\
    (List.length more <= List.length (filter is_server_iterate evs))%nat /\
    Forall well_formed_line more.
Proof.
  induction evs as [ | ev evs IH]; intros p; cbv zeta.
  - split; [reflexivity | ]. exists []. rewrite app_nil_r.
    split; [reflexivity | split; [simpl; lia | constructor] ].
  - change (Server.exec a p (ev :: evs))
      with (Server.exec a (Server.step a p ev) evs).
    destruct (server_step_frame a p ev) as (He1 & m1 & Hl1 & Hn1 & Hw1).
    destruct (IH (Server.step a p ev)) as (He2 & m2 & Hl2 & Hn2 & Hw2).
    split; [rewrite He2; exact He1 | ].
    exists (m1 ++ m2).
    split; [rewrite Hl2, Hl1, app_assoc; reflexivity | ].
    split; [ | apply Forall_app; split; assumption].
    rewrite length_app. simpl. destruct (is_server_iterate ev); simpl in *; lia.
Qed.

Lemma server_start_log e : Server.recv_log (Server.start e) = [].
Proof.
  unfold Server.start.
  destruct (Z.of_nat (List.length (Server.argv e)) <? 3); [reflexivity | ].
  destruct (Server.bind_result e <? 0); [reflexivity | ].
  destruct (negb (Server.fopen_ok e)); reflexivity.
Qed.

(** X1: whatever the server receives (datagrams of any content and length,
    failed receives, signals), every entry of [recv.log] is one parseable
    line: a sequence in the unsigned 32-bit range, one space, a latency in
    [0, 2^63), and a single newline, at the end. *)
Theorem server_log_well_formed a e evs :
  Forall well_formed_line (Server.recv_log (Server.main a e evs)).
Proof.
  unfold Server.main.
  destruct (server_exec_frame a evs (Server.start e)) as (_ & more & Hl & _ & Hw).
  rewrite Hl, server_start_log. exact Hw.
Qed.

(** X2: the log only grows: what has been written stays, in place, and a
    further stretch of events adds at most one line per loop iteration in
    it. *)
Theorem server_log_append_only a e evs1 evs2 :
  exists more,
    Server.recv_log (Server.main a e (evs1 ++ evs2)) =
      Server.recv_log (Server.main a e evs1) ++ more /\
    (List.length more <= List.length (filter is_server_iterate evs2))%nat.
Proof.
  unfold Server.main. rewrite server_exec_app.
  destruct (server_exec_frame a evs2 (Server.exec a (Server.start e) evs1))
    as (_ & more & Hl & Hn & _).
  exists more. split; assumption.
Qed.

(** X3: from the loop on the server writes nothing to standard error:
    short datagrams, failed receives and signals leave it as it was. *)
Theorem server_loop_silent a p evs :
  Server.err (Server.exec a p evs) = Server.err p.
Proof. destruct (server_exec_frame a evs p) as (He & _). exact He. Qed.

(** ** Any run of datagrams *)

Lemma server_exec_deliver_any a ds : forall clocks p,
  Server.st p = Running -> Server.run p <> 0 ->
  let q := Server.exec a p (Server.deliver ds clocks) in
  Server.st q = Running /\ Server.run q = Server.run p /\
  Server.recv_log q =
    Server.recv_log p ++
    map (fun dc => Server.line_of a (snd dc) (fst dc))
        (filter (holds_header a) (List.combine ds clocks)).
Proof.
  induction ds as [ | d ds IH]; intros clocks p Hst Hrun; simpl.
  - rewrite app_nil_r. auto.
  - destruct clocks as [ | c clocks]; simpl.
    + rewrite app_nil_r. auto.
    + unfold Server.deliver, Server.exec in *. simpl.
      rewrite server_step_running by assumption.
      unfold holds_header at 1. simpl fst.
      destruct (Nat.leb_spec (Wire.sizeof_hdr a) (List.length d)) as [Hd | Hd].
      * rewrite body_accepts by exact Hd.
        match goal with |- context [fold_left _ _ ?x] => set (p1 := x) end.
        destruct (IH clocks p1 eq_refl Hrun) as (H1 & H2 & H3).
        rewrite H1, H2, H3. subst p1. simpl.
        rewrite <- app_assoc. auto.
      * rewrite body_drops by exact Hd.
        match goal with |- context [fold_left _ _ ?x] => set (p1 := x) end.
        destruct (IH clocks p1 eq_refl Hrun) as (H1 & H2 & H3).
        rewrite H1, H2, H3. subst p1. simpl. auto.
Qed.

(** X4: the server keeps no state between datagrams.  Fed any run of
    datagrams, it writes one line for each datagram that is at least as long
    as the header, in the order of arrival, and the line depends on that
    datagram and the clock at its receipt alone: short datagrams leave no
    trace, and duplicated or reordered datagrams are logged as they come. *)
Theorem server_logs_each_valid_datagram a p ds clocks :
  Server.st p = Running -> Server.run p <> 0 ->
  let q := Server.exec a p (Server.deliver ds clocks) in
  Server.st q = Running /\
  Server.recv_log q =
    Server.recv_log p ++
    map (fun dc => Server.line_of a (snd dc) (fst dc))
        (filter (holds_header a) (List.combine ds clocks)).
Proof.
  intros Hst Hrun. cbv zeta.
  destruct (server_exec_deliver_any a ds clocks p Hst Hrun) as (H1 & _ & H3).
  split; assumption.
Qed.

Lemma server_logs_each_valid_datagram_witness :
  let a := Scenario.le_packed in
  let p := Server.start Scenario.server_env in
  let d := Scenario.first_datagram a in
  let ds := [d; [Byte.x01; Byte.x02]; d; Scenario.all_ones; []] in
  let clocks := [1500; 1600; 1700; 1800; 1900] in
  (Server.st p = Running /\ Server.run p <> 0) /\
  Server.recv_log (Server.exec a p (Server.deliver ds clocks)) =
    [Server.record_line 1 500; Server.record_line 1 700;
     Server.record_line 4294967295 1801].
Proof.
  cbv zeta.
  assert (H1 : Server.st (Server.start Scenario.server_env) = Running)
    by reflexivity.
  assert (H2 : Server.run (Server.start Scenario.server_env) <> 0)
    by (vm_compute; discriminate).
  pose proof (server_logs_each_valid_datagram Scenario.le_packed _
                [Scenario.first_datagram Scenario.le_packed;
                 [Byte.x01; Byte.x02];
                 Scenario.first_datagram Scenario.le_packed;
                 Scenario.all_ones; []]
                [1500; 1600; 1700; 1800; 1900] H1 H2) as H.
  cbv zeta in H. destruct H as (_ & Hlog).
  repeat split; first [assumption | rewrite Hlog; vm_compute; reflexivity].
Defined.

(** ** Release of the server's resources *)

Lemma server_released_step a p ev :
  (Server.st p = Running /\ Server.fp_closed p = false /\ Server.sock_closed p = false) \/
  (Server.st p = Exited 0 /\ Server.fp_closed p = true /\ Server.sock_closed p = true) \/
  (Server.st p = Exited 1 /\ Server.fp_closed p = false /\ Server.sock_closed p = false) ->
  let q := Server.step a p ev in
  (Server.st q = Running /\ Server.fp_closed q = false /\ Server.sock_closed q = false) \/
  (Server.st q = Exited 0 /\ Server.fp_closed q = true /\ Server.sock_closed q = true) \/
  (Server.st q = Exited 1 /\ Server.fp_closed q = false /\ Server.sock_closed q = false).
Proof.
  intros H. cbv zeta. unfold Server.step.
  destruct (Server.st p) eqn:Hst; [ | rewrite Hst; exact H].
  destruct H as [(_ & Hf & Hs) | [(Hx & _) | (Hx & _)] ]; try discriminate.
  destruct ev as [ | r clock].
  - left. simpl. auto.
  - destruct (Server.run p =? 0).
    + right. left. simpl. auto.
    + left. destruct (server_body_frame a r clock p) as (_ & _ & Hf' & Hs' & _).
      rewrite Hf', Hs', server_body_status. auto.
Qed.

(** X6: the server closes [recv.log] and its socket exactly when it leaves
    the loop and returns 0.  While it runs both are open, and the fatal
    startup paths (usage, [bind], [fopen]) return 1 without closing
    anything.  No other exit status exists. *)
Theorem server_release_on_exit a e evs :
  let q := Server.main a e evs in
  (Server.st q = Running \/ Server.st q = Exited 0 \/ Server.st q = Exited 1) /\
  (Server.fp_closed q = true <-> Server.st q = Exited 0) /\
  (Server.sock_closed q = true <-> Server.st q = Exited 0).
Proof.
  cbv zeta. unfold Server.main, Server.exec.
  assert (Hstart :
    (Server.st (Server.start e) = Running /\
     Server.fp_closed (Server.start e) = false /\
     Server.sock_closed (Server.start e) = false) \/
    (Server.st (Server.start e) = Exited 0 /\
     Server.fp_closed (Server.start e) = true /\
     Server.sock_closed (Server.start e) = true) \/
    (Server.st (Server.start e) = Exited 1 /\
     Server.fp_closed (Server.start e) = false /\
     Server.sock_closed (Server.start e) = false)).
  { unfold Server.start.
    destruct (Z.of_nat (List.length (Server.argv e)) <? 3); [simpl; auto | ].
    destruct (Server.bind_result e <? 0); [simpl; auto | ].
    destruct (negb (Server.fopen_ok e)); simpl; auto. }
  revert Hstart. generalize (Server.start e) as p.
  induction evs as [ | ev evs IH]; intros p Hp; simpl.
  - destruct Hp as [(H1 & H2 & H3) | [(H1 & H2 & H3) | (H1 & H2 & H3)] ];
      rewrite H1, H2, H3; repeat split; auto; intros; discriminate.
  - apply IH. apply server_released_step. exact Hp.
Qed.

(** ** The latency, case by case *)

(** X7: the latency the server logs for clock readings [now] and [t] in the
    unsigned 64-bit range.  It is the delay [now - t] when that is between 0
    and [2^63 - 1]; it is 0 when the send time is ahead of the server's
    clock by at most [2^63], and also when the delay is [2^63] or more; and
    when the send time is ahead by more than [2^63] it is [now - t + 2^64],
    a positive number.  It is always below [2^63]. *)
Theorem latency_cases now t :
  0 <= now < 2 ^ 64 -> 0 <= t < 2 ^ 64 ->
  (0 <= now - t < 2 ^ 63 -> Server.latency now t = now - t) /\
  (- 2 ^ 63 <= now - t < 0 -> Server.latency now t = 0) /\
  (2 ^ 63 <= now - t -> Server.latency now t = 0) /\
  (now - t < - 2 ^ 63 -> Server.latency now t = now - t + 2 ^ 64) /\
  0 <= Server.latency now t < 2 ^ 63.
Proof.
  intros Hnow Ht. rewrite latency_centered.
  change (2 ^ 64) with 18446744073709551616 in *.
  change (2 ^ 63) with 9223372036854775808 in *.
  split; [ | split; [ | split; [ | split] ] ]; try intros H;
    Z.div_mod_to_equations; lia.
Qed.

Lemma latency_cases_witness :
  (0 <= 1500 < 2 ^ 64 /\ 0 <= 1000 < 2 ^ 64) /\
  Server.latency 1500 1000 = 500 /\
  Server.latency 1000 1500 = 0.
Proof.
  assert (H1 : 0 <= 1500 < 2 ^ 64) by lia.
  assert (H2 : 0 <= 1000 < 2 ^ 64) by lia.
  pose proof (latency_cases 1500 1000 H1 H2) as (Ha & _).
  pose proof (latency_cases 1000 1500 H2 H1) as (_ & Hb & _).
  split; [split; assumption | ].
  split; [apply Ha; lia | apply Hb; lia].
Defined.

(** * Further properties of the client *)

(** ** The client once the run flag is clear *)

Lemma client_exec_stopped a evs : forall p,
  Client.st p = Running -> Client.run p = 0 ->
  let q := Client.exec a p evs in
  Client.sent q = Client.sent p /\
  Client.slept q = Client.slept p /\
  Client.hdr q = Client.hdr p /\
  (existsb is_client_iterate evs = false ->
   Client.st q = Running /\ Client.hdr_freed q = Client.hdr_freed p /\
   Client.sock_closed q = Client.sock_closed p) /\
  (existsb is_client_iterate evs = true ->
   Client.st q = Exited 0 /\ Client.hdr_freed q = true /\
   Client.sock_closed q = true).
Proof.
  induction evs as [ | ev evs IH]; intros p Hst Hrun; cbv zeta.
  - simpl. repeat split; auto; discriminate.
  - change (Client.exec a p (ev :: evs))
      with (Client.exec a (Client.step a p ev) evs).
    destruct ev as [ | clock].
    + assert (Hs : Client.step a p Client.Signal = Client.handle_sig p)
        by (unfold Client.step; rewrite Hst; reflexivity).
      rewrite Hs.
      destruct (IH (Client.handle_sig p) Hst eq_refl) as (H1 & H2 & H3 & H4 & H5).
      simpl existsb. repeat split; auto; try (apply H4; assumption);
        apply H5; assumption.
    + assert (Hs : Client.step a p (Client.Iterate clock) = Client.finish p)
        by (unfold Client.step; rewrite Hst, Hrun; reflexivity).
      rewrite Hs, (client_exec_exited a evs _ 0) by reflexivity.
      simpl. repeat split; auto; discriminate.
Qed.

(** ** Send times and sleeps *)

Lemma client_start_running a e :
  (3 <= List.length (tl (Client.argv e)))%nat ->
  Client.start a e =
  {| Client.st := Running; Client.run := 1;
     Client.hdr := Wire.set_seq a 0 (Client.heap e);
     Client.sent := []; Client.slept := []; Client.err := EmptyString;
     Client.hdr_freed := false; Client.sock_closed := false |}.
Proof.
  intros H. unfold Client.start.
  destruct (argc_positional_ge (Client.argv e)); [ | lia].
  destruct (Z.ltb_spec (Z.of_nat (List.length (Client.argv e))) 4);
    [lia | reflexivity].
Qed.

Lemma client_exec_send_times a evs : forall p,
  Client.st p = Running -> Client.run p <> 0 ->
  List.length (Client.hdr p) = Wire.datagram_size a ->
  let q := Client.exec a p evs in
  map (Wire.get_send_time_us a) (Client.sent q) =
    map (Wire.get_send_time_us a) (Client.sent p) ++ map u64 (client_clocks evs).
Proof.
  induction evs as [ | ev evs IH]; intros p Hst Hrun Hlen; cbv zeta.
  - simpl. rewrite app_nil_r. reflexivity.
  - change (Client.exec a p (ev :: evs))
      with (Client.exec a (Client.step a p ev) evs).
    destruct ev as [ | clock].
    + assert (Hs : Client.step a p Client.Signal = Client.handle_sig p)
        by (unfold Client.step; rewrite Hst; reflexivity).
      rewrite Hs.
      destruct (client_exec_stopped a evs (Client.handle_sig p) Hst eq_refl)
        as (H1 & _).
      rewrite H1. simpl. rewrite app_nil_r. reflexivity.
    + rewrite client_step_running by assumption.
      rewrite (IH (Client.body a clock p) eq_refl Hrun
                 (body_hdr_length a p clock Hlen)).
      rewrite body_sent by exact Hlen.
      rewrite map_app, <- app_assoc. f_equal.
      cbn [map app client_clocks]. f_equal.
      apply body_send_time. exact Hlen.
Qed.

Lemma client_step_sleeps a p ev :
  Client.slept p = repeat 100000 (List.length (Client.sent p)) ->
  Client.slept (Client.step a p ev) =
  repeat 100000 (List.length (Client.sent (Client.step a p ev))).
Proof.
  intros H. unfold Client.step.
  destruct (Client.st p); [ | exact H].
  destruct ev as [ | clock]; [exact H | ].
  destruct (Client.run p =? 0); [exact H | ].
  simpl. rewrite H, length_app, repeat_app. reflexivity.
Qed.

(** X10: the client sleeps once for every datagram it sends, 100000
    microseconds each time, and never otherwise: in every run, with or
    without signals, the calls of [usleep] are as many as the datagrams sent
    and all have the argument 100000. *)
Theorem client_one_sleep_per_send a e evs :
  let q := Client.main a e evs in
  Client.slept q = repeat 100000 (List.length (Client.sent q)).
Proof.
  cbv zeta. unfold Client.main, Client.exec.
  assert (Hstart : Client.slept (Client.start a e) =
                   repeat 100000 (List.length (Client.sent (Client.start a e)))).
  { unfold Client.start.
    destruct (Z.of_nat (List.length (Client.argv e)) <? 4); reflexivity. }
  revert Hstart. generalize (Client.start a e) as p.
  induction evs as [ | ev evs IH]; intros p Hp; simpl.
  - exact Hp.
  - apply IH. apply client_step_sleeps. exact Hp.
Qed.

(** ** What the client never writes *)

Lemma skipn_store e n off v (mem : list byte) k :
  (off + n <= k)%nat -> (off + n <= List.length mem)%nat ->
  skipn k (store e n off v mem) = skipn k mem.
Proof.
  intros Hk Hlen. unfold store.
  rewrite skipn_app, length_firstn, Nat.min_l by lia.
  rewrite (skipn_all2 (firstn off mem)) by (rewrite length_firstn; lia).
  rewrite skipn_app, length_to_bytes.
  rewrite (skipn_all2 (to_bytes e n v)) by (rewrite length_to_bytes; lia).
  simpl. rewrite skipn_skipn. f_equal. lia.
Qed.

Lemma outside_fields_set_seq a v mem :
  (Wire.sizeof_hdr a <= List.length mem)%nat ->
  outside_fields a (Wire.set_seq a v mem) = outside_fields a mem.
Proof.
  intros H. unfold outside_fields, Wire.set_seq.
  pose proof (send_time_off_bounds a) as [Hb1 Hb2].
  rewrite !skipn_store by (unfold Wire.seq_off, Wire.seq_size in *; lia).
  reflexivity.
Qed.

Lemma outside_fields_set_send_time_us a v mem :
  (Wire.sizeof_hdr a <= List.length mem)%nat ->
  outside_fields a (Wire.set_send_time_us a v mem) = outside_fields a mem.
Proof.
  intros H. unfold outside_fields, Wire.set_send_time_us.
  pose proof (send_time_off_bounds a) as [Hb1 Hb2].
  rewrite (skipn_store _ _ _ _ _ (Wire.sizeof_hdr a)) by lia.
  rewrite field_before_store by lia.
  reflexivity.
Qed.

Lemma outside_fields_body a p clock :
  List.length (Client.hdr p) = Wire.datagram_size a ->
  outside_fields a (Client.hdr (Client.body a clock p)) =
  outside_fields a (Client.hdr p).
Proof.
  intros Hlen. pose proof (datagram_size_ge_sizeof a). simpl.
  rewrite outside_fields_set_send_time_us by (rewrite length_set_seq; lia).
  apply outside_fields_set_seq. lia.
Qed.

Lemma client_exec_outside_fields a (x : list byte * list byte) evs : forall p,
  (Client.st p = Running ->
   List.length (Client.hdr p) = Wire.datagram_size a /\
   outside_fields a (Client.hdr p) = x) ->
  Forall (fun d => outside_fields a d = x) (Client.sent p) ->
  Forall (fun d => outside_fields a d = x) (Client.sent (Client.exec a p evs)).
Proof.
  induction evs as [ | ev evs IH]; intros p Hrun Hsent.
  - exact Hsent.
  - change (Client.exec a p (ev :: evs))
      with (Client.exec a (Client.step a p ev) evs).
    apply IH; unfold Client.step; destruct (Client.st p) eqn:Hst;
      try (rewrite ?Hst; assumption).
    + destruct ev as [ | clock]; [simpl; intros _; auto | ].
      destruct (Client.run p =? 0); [simpl; discriminate | ].
      destruct (Hrun eq_refl) as [Hlen Hx]. intros _.
      split; [apply body_hdr_length; exact Hlen | ].
      rewrite outside_fields_body by exact Hlen. exact Hx.
    + destruct ev as [ | clock]; [exact Hsent | ].
      destruct (Client.run p =? 0); [exact Hsent | ].
      destruct (Hrun eq_refl) as [Hlen Hx].
      rewrite body_sent by exact Hlen.
      apply Forall_app. split; [exact Hsent | ].
      constructor; [ | constructor].
      rewrite outside_fields_body by exact Hlen. exact Hx.
Qed.

(** X11: the client writes the two header fields and nothing else.  In
    every datagram it sends, the 100-byte payload and the padding between
    the fields (when the layout has any) are the bytes that were in the
    block when [malloc] returned it. *)
Theorem client_payload_untouched a e evs :
  List.length (Client.heap e) = Wire.datagram_size a ->
  Forall (fun d => outside_fields a d = outside_fields a (Client.heap e) /\
                   List.length (snd (outside_fields a d)) = 100%nat)
         (Client.sent (Client.main a e evs)).
Proof.
  intros Hheap. pose proof (datagram_size_ge_sizeof a) as Hsz.
  assert (H : Forall (fun d => outside_fields a d = outside_fields a (Client.heap e))
                (Client.sent (Client.main a e evs))).
  { unfold Client.main. apply client_exec_outside_fields.
    - unfold Client.start.
      destruct (Z.of_nat (List.length (Client.argv e)) <? 4); simpl;
        [discriminate | ].
      intros _. split; [rewrite length_set_seq; lia | ].
      apply outside_fields_set_seq. lia.
    - unfold Client.start.
      destruct (Z.of_nat (List.length (Client.argv e)) <? 4); constructor. }
  apply Forall_forall. intros d Hd.
  pose proof (proj1 (Forall_forall _ _) H d Hd) as Hx.
  split; [exact Hx | ].
  rewrite Hx. unfold outside_fields. simpl snd.
  rewrite length_skipn, Hheap. unfold Wire.datagram_size, Wire.payload_size. lia.
Qed.

Lemma client_payload_untouched_witness :
  let a := Scenario.le_aligned in
  let e := {| Client.argv := ["client"; "127.0.0.1"; "9000"; "7"]%string;
              Client.heap := repeat Byte.x5a (Wire.datagram_size a) |} in
  let d := nth 1 (Client.sent (Client.main a e
                    [Client.Iterate 1000; Client.Iterate 101000])) [] in
  List.length (Client.heap e) = Wire.datagram_size a /\
  outside_fields a d = (repeat Byte.x5a 4, repeat Byte.x5a 100).
Proof.
  cbv zeta.
  assert (H1 : List.length (repeat Byte.x5a (Wire.datagram_size Scenario.le_aligned)) =
               Wire.datagram_size Scenario.le_aligned) by reflexivity.
  pose proof (client_payload_untouched Scenario.le_aligned
                {| Client.argv := ["client"; "127.0.0.1"; "9000"; "7"]%string;
                   Client.heap := repeat Byte.x5a
                                    (Wire.datagram_size Scenario.le_aligned) |}
                [Client.Iterate 1000; Client.Iterate 101000] H1) as H.
  split; [exact H1 | ].
  pose proof (proj1 (Forall_forall _ _) H) as Hall.
  destruct (Hall (nth 1 (Client.sent (Client.main Scenario.le_aligned
                {| Client.argv := ["client"; "127.0.0.1"; "9000"; "7"]%string;
                   Client.heap := repeat Byte.x5a
                                    (Wire.datagram_size Scenario.le_aligned) |}
                [Client.Iterate 1000; Client.Iterate 101000])) []))
    as [Hx _].
  - right. left. reflexivity.
  - rewrite Hx. reflexivity.
Defined.

(** ** Release of the client's resources *)

Lemma client_released_step a p ev :
  (Client.st p = Running /\ Client.hdr_freed p = false /\ Client.sock_closed p = false) \/
  (Client.st p = Exited 0 /\ Client.hdr_freed p = true /\ Client.sock_closed p = true) \/
  (Client.st p = Exited 1 /\ Client.hdr_freed p = false /\ Client.sock_closed p = false) ->
  let q := Client.step a p ev in
  Client.err q = Client.err p /\
  ((Client.st q = Running /\ Client.hdr_freed q = false /\ Client.sock_closed q = false) \/
   (Client.st q = Exited 0 /\ Client.hdr_freed q = true /\ Client.sock_closed q = true) \/
   (Client.st q = Exited 1 /\ Client.hdr_freed q = false /\ Client.sock_closed q = false)).
Proof.
  intros H. cbv zeta. unfold Client.step.
  destruct (Client.st p) eqn:Hst; [ | rewrite Hst; auto].
  destruct H as [(_ & Hf & Hs) | [(Hx & _) | (Hx & _)] ]; try discriminate.
  destruct ev as [ | clock].
  - split; [reflexivity | left; simpl; auto].
  - destruct (Client.run p =? 0).
    + split; [reflexivity | right; left; simpl; auto].
    + split; [reflexivity | left; simpl; auto].
Qed.

(** X12: the client frees its packet buffer and closes its socket exactly
    when it leaves the loop and returns 0; while it runs both are in place,
    so every datagram is sent from a live buffer through an open socket.
    The usage error returns 1 having acquired nothing.  The loop writes
    nothing to standard error. *)
Theorem client_release_on_exit a e evs :
  let q := Client.main a e evs in
  (Client.st q = Running \/ Client.st q = Exited 0 \/ Client.st q = Exited 1) /\
  (Client.hdr_freed q = true <-> Client.st q = Exited 0) /\
  (Client.sock_closed q = true <-> Client.st q = Exited 0) /\
  Client.err q = Client.err (Client.start a e).
Proof.
  cbv zeta. unfold Client.main, Client.exec.
  assert (Hstart :
    (Client.st (Client.start a e) = Running /\
     Client.hdr_freed (Client.start a e) = false /\
     Client.sock_closed (Client.start a e) = false) \/
    (Client.st (Client.start a e) = Exited 0 /\
     Client.hdr_freed (Client.start a e) = true /\
     Client.sock_closed (Client.start a e) = true) \/
    (Client.st (Client.start a e) = Exited 1 /\
     Client.hdr_freed (Client.start a e) = false /\
     Client.sock_closed (Client.start a e) = false)).
  { unfold Client.start.
    destruct (Z.of_nat (List.length (Client.argv e)) <? 4); simpl; auto. }
  revert Hstart. generalize (Client.start a e) as p.
  induction evs as [ | ev evs IH]; intros p Hp; simpl.
  - destruct Hp as [(H1 & H2 & H3) | [(H1 & H2 & H3) | (H1 & H2 & H3)] ];
      rewrite H1, H2, H3; repeat split; auto; intros; discriminate.
  - destruct (client_released_step a p ev Hp) as (He & Hq).
    destruct (IH _ Hq) as (I1 & I2 & I3 & I4).
    repeat split; try apply I2; try apply I3; auto.
    rewrite I4. exact He.
Qed.

(** ** Overflow of the sequence counter *)

(** X13: the sequence counter wraps without any other effect: when
    [hdr->seq] holds [2^32 - 1], the next iteration sends a datagram with
    sequence 0, the one after it a datagram with sequence 1, and the client
    keeps running. *)
Theorem sequence_wraps_to_zero a p clock clock' :
  Client.st p = Running -> Client.run p <> 0 ->
  List.length (Client.hdr p) = Wire.datagram_size a ->
  Wire.get_seq a (Client.hdr p) = 2 ^ 32 - 1 ->
  let q := Client.step a p (Client.Iterate clock) in
  let q' := Client.step a q (Client.Iterate clock') in
  Client.sent q' = Client.sent p ++ [Client.hdr q; Client.hdr q'] /\
  Wire.get_seq a (Client.hdr q) = 0 /\
  Wire.get_seq a (Client.hdr q') = 1 /\
  Client.st q' = Running.
Proof.
  intros Hst Hrun Hlen Hmax. cbv zeta.
  rewrite (client_step_running a p clock Hst Hrun).
  rewrite (client_step_running a (Client.body a clock p) clock' eq_refl Hrun).
  pose proof (body_hdr_length a p clock Hlen) as Hlen'.
  assert (H0 : Wire.get_seq a (Client.hdr (Client.body a clock p)) = 0).
  { rewrite body_seq, Hmax by exact Hlen. reflexivity. }
  split.
  - rewrite (body_sent a (Client.body a clock p) clock' Hlen').
    rewrite (body_sent a p clock Hlen). rewrite <- app_assoc. reflexivity.
  - split; [exact H0 | ]. split; [ | reflexivity].
    rewrite body_seq, H0 by exact Hlen'. reflexivity.
Qed.

Lemma sequence_wraps_to_zero_witness :
  let a := Scenario.be_packed in
  let p := {| Client.st := Running; Client.run := 1;
              Client.hdr := Wire.set_seq a 4294967295
                              (repeat Byte.x00 (Wire.datagram_size a));
              Client.sent := []; Client.slept := []; Client.err := EmptyString;
              Client.hdr_freed := false; Client.sock_closed := false |} in
  (Client.st p = Running /\ Client.run p <> 0 /\
   List.length (Client.hdr p) = Wire.datagram_size a /\
   Wire.get_seq a (Client.hdr p) = 2 ^ 32 - 1) /\
  Wire.get_seq a (Client.hdr (Client.step a p (Client.Iterate 5))) = 0.
Proof.
  cbv zeta.
  set (p := {| Client.st := Running; Client.run := 1;
               Client.hdr := Wire.set_seq Scenario.be_packed 4294967295
                               (repeat Byte.x00
                                  (Wire.datagram_size Scenario.be_packed));
               Client.sent := []; Client.slept := []; Client.err := EmptyString;
               Client.hdr_freed := false; Client.sock_closed := false |}).
  assert (H1 : Client.st p = Running) by reflexivity.
  assert (H2 : Client.run p <> 0) by (vm_compute; discriminate).
  assert (H3 : List.length (Client.hdr p) =
               Wire.datagram_size Scenario.be_packed) by reflexivity.
  assert (H4 : Wire.get_seq Scenario.be_packed (Client.hdr p) = 2 ^ 32 - 1)
    by reflexivity.
  pose proof (sequence_wraps_to_zero Scenario.be_packed p 5 6 H1 H2 H3 H4) as H.
  cbv zeta in H. destruct H as (_ & H0 & _).
  repeat split; assumption.
Defined.

(** * Client and server together *)

Lemma client_clocks_iterations clocks :
  client_clocks (map Client.Iterate clocks) = clocks.
Proof. induction clocks as [ | c cs IH]; simpl; [ | rewrite IH]; reflexivity. Qed.

Lemma client_main_sent a e evs :
  List.length (Client.heap e) = Wire.datagram_size a ->
  seq_numbered a (Client.sent (Client.main a e evs)).
Proof.
  intros Hheap.
  apply (client_inv_exec a evs (Client.start a e)).
  apply client_inv_start. exact Hheap.
Qed.

Lemma client_main_send_times a e evs :
  List.length (Client.heap e) = Wire.datagram_size a ->
  (3 <= List.length (tl (Client.argv e)))%nat ->
  map (Wire.get_send_time_us a) (Client.sent (Client.main a e evs)) =
  map u64 (client_clocks evs).
Proof.
  intros Hheap Hargs. unfold Client.main.
  rewrite client_exec_send_times; rewrite (client_start_running a e Hargs);
    simpl; try reflexivity; try discriminate.
  pose proof (datagram_size_ge_sizeof a). rewrite length_set_seq; lia.
Qed.

Lemma skipn_app_length {A} (l1 l2 : list A) : skipn (List.length l1) (l1 ++ l2) = l2.
Proof.
  rewrite skipn_app, skipn_all, Nat.sub_diag. reflexivity.
Qed.

(** X14: client and server on one platform, end to end.  The client runs
    [N < 2^32] iterations at the clock readings [cclocks]; the server
    receives the datagrams in order at the readings [sclocks]; all readings
    are below [2^63].  Then the server writes exactly [N] lines, and line
    [i] (from 1) is ["i L\n"] with [L] the server's reading minus the
    client's, or 0 when the client's clock is ahead. *)
Theorem end_to_end_latency a e cclocks sclocks sp :
  List.length (Client.heap e) = Wire.datagram_size a ->
  (3 <= List.length (tl (Client.argv e)))%nat ->
  Server.st sp = Running -> Server.run sp <> 0 ->
  List.length sclocks = List.length cclocks ->
  Z.of_nat (List.length cclocks) < 2 ^ 32 ->
  Forall (fun c => 0 <= c < 2 ^ 63) cclocks ->
  Forall (fun c => 0 <= c < 2 ^ 63) sclocks ->
  let ds := Client.sent (Client.main a e (map Client.Iterate cclocks)) in
  let sp' := Server.exec a sp (Server.deliver ds sclocks) in
  let lines := skipn (List.length (Server.recv_log sp)) (Server.recv_log sp') in
  Server.recv_log sp' = Server.recv_log sp ++ lines /\
  List.length lines = List.length cclocks /\
  forall i c s,
    nth_error cclocks i = Some c -> nth_error sclocks i = Some s ->
    nth_error lines i =
      Some (Server.record_line (Z.of_nat i + 1) (Z.max 0 (s - c))).
Proof.
  intros Hheap Hargs Hst Hrun Hlen HN Hc Hs. cbv zeta.
  set (ds := Client.sent (Client.main a e (map Client.Iterate cclocks))).
  pose proof (client_main_sent a e (map Client.Iterate cclocks) Hheap) as Hnum.
  pose proof (client_main_send_times a e (map Client.Iterate cclocks) Hheap Hargs)
    as Htimes.
  rewrite client_clocks_iterations in Htimes. fold ds in Hnum, Htimes.
  assert (Hds : List.length ds = List.length cclocks).
  { rewrite <- (length_map (Wire.get_send_time_us a)), Htimes. apply length_map. }
  destruct (server_exec_deliver a ds sclocks sp Hst Hrun
              (seq_numbered_lengths a ds Hnum)) as (_ & _ & _ & Hlog).
  rewrite Hlog, skipn_app_length.
  split; [reflexivity | ].
  split; [rewrite length_map, length_combine; lia | ].
  intros i c s Hi Hsi.
  destruct (nth_error ds i) as [d | ] eqn:Hd.
  - rewrite (nth_error_map_combine
               (fun dc => Server.line_of a (snd dc) (fst dc)) ds sclocks i d s Hd Hsi).
    f_equal. unfold Server.line_of. simpl fst. simpl snd.
    destruct (Hnum i d Hd) as [_ Hseq].
    assert (Hi' : (i < List.length cclocks)%nat)
      by (apply nth_error_Some; congruence).
    assert (Ht : Wire.get_send_time_us a d = u64 c).
    { pose proof (map_nth_error (Wire.get_send_time_us a) i ds Hd) as H1.
      rewrite Htimes in H1.
      rewrite (map_nth_error u64 i cclocks Hi) in H1. congruence. }
    pose proof (proj1 (Forall_forall _ _) Hc c (nth_error_In _ _ Hi)) as Hcr.
    pose proof (proj1 (Forall_forall _ _) Hs s (nth_error_In _ _ Hsi)) as Hsr.
    cbv beta in Hcr, Hsr.
    rewrite Hseq, Ht.
    rewrite (u64_small c), (u64_small s) by lia.
    unfold u32. rewrite Z.mod_small by lia.
    rewrite latency_in_range by lia. reflexivity.
  - apply nth_error_None in Hd.
    assert (nth_error cclocks i = None) by (apply nth_error_None; lia).
    congruence.
Qed.

Lemma end_to_end_latency_witness :
  let a := Scenario.le_aligned in
  let e := Scenario.client_env a in
  let cclocks := [1000; 101000; 201000] in
  let sclocks := [1500; 101400; 200000] in
  let sp := Server.start Scenario.server_env in
  let ds := Client.sent (Client.main a e (map Client.Iterate cclocks)) in
  (List.length (Client.heap e) = Wire.datagram_size a /\
   (3 <= List.length (tl (Client.argv e)))%nat /\
   Server.st sp = Running /\ Server.run sp <> 0 /\
   List.length sclocks = List.length cclocks /\
   Z.of_nat (List.length cclocks) < 2 ^ 32 /\
   Forall (fun c => 0 <= c < 2 ^ 63) cclocks /\
   Forall (fun c => 0 <= c < 2 ^ 63) sclocks) /\
  nth_error (Server.recv_log (Server.exec a sp (Server.deliver ds sclocks))) 2 =
    Some (Server.record_line 3 0).
Proof.
  cbv zeta.
  assert (H1 : List.length (Client.heap (Scenario.client_env Scenario.le_aligned)) =
               Wire.datagram_size Scenario.le_aligned) by reflexivity.
  assert (H2 : (3 <= List.length
                  (tl (Client.argv (Scenario.client_env Scenario.le_aligned))))%nat)
    by (simpl; lia).
  assert (H3 : Server.st (Server.start Scenario.server_env) = Running)
    by reflexivity.
  assert (H4 : Server.run (Server.start Scenario.server_env) <> 0)
    by (vm_compute; discriminate).
  assert (H5 : List.length [1500; 101400; 200000] =
               List.length [1000; 101000; 201000]) by reflexivity.
  assert (H6 : Z.of_nat (List.length [1000; 101000; 201000]) < 2 ^ 32)
    by (simpl; lia).
  assert (H7 : Forall (fun c => 0 <= c < 2 ^ 63) [1000; 101000; 201000])
    by (repeat constructor; lia).
  assert (H8 : Forall (fun c => 0 <= c < 2 ^ 63) [1500; 101400; 200000])
    by (repeat constructor; lia).
  pose proof (end_to_end_latency Scenario.le_aligned _ _ _ _
                H1 H2 H3 H4 H5 H6 H7 H8) as H.
  cbv zeta in H. destruct H as (_ & _ & Hline).
  split; [repeat split; assumption | ].
  exact (Hline 2%nat 201000 200000 eq_refl eq_refl).
Defined.

(** X15: client and server on different platforms.  Every datagram of the
    client passes the server's length check whatever the two header layouts
    are, so the server writes exactly one line per datagram; and when the
    two hosts have the same byte order, line [i] carries the sequence [i]
    modulo [2^32] even if their header layouts differ. *)
Theorem one_line_per_datagram_any_abi ca sa e evs sclocks sp :
  List.length (Client.heap e) = Wire.datagram_size ca ->
  Server.st sp = Running -> Server.run sp <> 0 ->
  let ds := Client.sent (Client.main ca e evs) in
  List.length sclocks = List.length ds ->
  let sp' := Server.exec sa sp (Server.deliver ds sclocks) in
  let lines := skipn (List.length (Server.recv_log sp)) (Server.recv_log sp') in
  Server.recv_log sp' = Server.recv_log sp ++ lines /\
  List.length lines = List.length ds /\
  Server.st sp' = Running /\
  (byte_order sa = byte_order ca ->
   forall i d now,
     nth_error ds i = Some d -> nth_error sclocks i = Some now ->
     nth_error lines i =
       Some (Server.record_line (u32 (Z.of_nat i + 1))
               (Server.latency (u64 now) (Wire.get_send_time_us sa d)))).
Proof.
  intros Hheap Hst Hrun ds Hlen. cbv zeta.
  pose proof (client_main_sent ca e evs Hheap) as Hnum. fold ds in Hnum.
  destruct (server_exec_deliver sa ds sclocks sp Hst Hrun
              (seq_numbered_lengths_any ca sa ds Hnum)) as (Hrunning & _ & _ & Hlog).
  rewrite Hlog, skipn_app_length.
  split; [reflexivity | ].
  split; [rewrite length_map, length_combine; lia | ].
  split; [exact Hrunning | ].
  intros Hbo i d now Hd Hnow.
  rewrite (nth_error_map_combine
             (fun dc => Server.line_of sa (snd dc) (fst dc)) ds sclocks i d now Hd Hnow).
  f_equal. unfold Server.line_of. simpl fst. simpl snd.
  destruct (Hnum i d Hd) as [_ Hseq].
  rewrite (get_seq_byte_order sa ca d Hbo), Hseq. reflexivity.
Qed.

Lemma one_line_per_datagram_any_abi_witness :
  let ca := Scenario.le_packed in
  let sa := Scenario.le_aligned in
  let e := Scenario.client_env ca in
  let evs := [Client.Iterate 1000; Client.Iterate 101000] in
  let sclocks := [1500; 101400] in
  let sp := Server.start Scenario.server_env in
  let ds := Client.sent (Client.main ca e evs) in
  (List.length (Client.heap e) = Wire.datagram_size ca /\
   Server.st sp = Running /\ Server.run sp <> 0 /\
   List.length sclocks = List.length ds) /\
  List.length (Server.recv_log (Server.exec sa sp (Server.deliver ds sclocks))) =
    2%nat.
Proof.
  cbv zeta.
  assert (H1 : List.length (Client.heap (Scenario.client_env Scenario.le_packed)) =
               Wire.datagram_size Scenario.le_packed) by reflexivity.
  assert (H2 : Server.st (Server.start Scenario.server_env) = Running)
    by reflexivity.
  assert (H3 : Server.run (Server.start Scenario.server_env) <> 0)
    by (vm_compute; discriminate).
  assert (H4 : List.length [1500; 101400] =
               List.length (Client.sent (Client.main Scenario.le_packed
                 (Scenario.client_env Scenario.le_packed)
                 [Client.Iterate 1000; Client.Iterate 101000]))) by reflexivity.
  pose proof (one_line_per_datagram_any_abi Scenario.le_packed Scenario.le_aligned
                _ _ _ _ H1 H2 H3 H4) as H.
  cbv zeta in H. destruct H as (Hlog & Hn & _).
  split; [repeat split; assumption | ].
  rewrite Hlog, length_app, Hn. reflexivity.
Defined.

(** * Only a signal ends the loop *)

Lemma server_exec_no_signal a evs : forall p,
  Server.st p = Running -> Server.run p <> 0 ->
  forallb is_server_iterate evs = true ->
  Server.st (Server.exec a p evs) = Running /\
  Server.run (Server.exec a p evs) = Server.run p.
Proof.
  induction evs as [ | ev evs IH]; intros p Hst Hrun Hall.
  - auto.
  - change (Server.exec a p (ev :: evs))
      with (Server.exec a (Server.step a p ev) evs).
    simpl in Hall. apply andb_prop in Hall as [Hev Hall].
    destruct ev as [ | r clock]; [discriminate | ].
    rewrite server_step_running by assumption.
    destruct (server_body_frame a r clock p) as (Hr & _).
    destruct (IH (Server.body a r clock p) (server_body_status a r clock p)
                ltac:(rewrite Hr; exact Hrun) Hall) as [H1 H2].
    split; [exact H1 | rewrite H2; exact Hr].
Qed.

(** X16: the server never leaves its loop on its own.  As long as no
    signal is delivered it keeps running, whatever it receives: datagrams
    of any length and content, and failed receives, do not end the loop. *)
Theorem server_stops_only_on_signal a e evs :
  Server.st (Server.start e) = Running ->
  forallb is_server_iterate evs = true ->
  Server.st (Server.main a e evs) = Running.
Proof.
  intros Hst Hall. unfold Server.main.
  apply (server_exec_no_signal a evs (Server.start e) Hst); [ | exact Hall].
  revert Hst. unfold Server.start.
  destruct (Z.of_nat (List.length (Server.argv e)) <? 3); [discriminate | ].
  destruct (Server.bind_result e <? 0); [discriminate | ].
  destruct (negb (Server.fopen_ok e)); [discriminate | ].
  simpl. discriminate.
Qed.

Lemma server_stops_only_on_signal_witness :
  let evs := [Server.Iterate Server.RecvError 5;
              Server.Iterate (Server.Datagram []) 6;
              Server.Iterate (Server.Datagram Scenario.all_ones) 7] in
  (Server.st (Server.start Scenario.server_env) = Running /\
   forallb is_server_iterate evs = true) /\
  Server.st (Server.main Scenario.le_packed Scenario.server_env evs) = Running.
Proof.
  cbv zeta.
  assert (H1 : Server.st (Server.start Scenario.server_env) = Running)
    by reflexivity.
  assert (H2 : forallb is_server_iterate
                 [Server.Iterate Server.RecvError 5;
                  Server.Iterate (Server.Datagram []) 6;
                  Server.Iterate (Server.Datagram Scenario.all_ones) 7] = true)
    by reflexivity.
  split; [split; assumption | ].
  exact (server_stops_only_on_signal Scenario.le_packed Scenario.server_env _ H1 H2).
Defined.

Lemma client_exec_no_signal a evs : forall p,
  Client.st p = Running -> Client.run p <> 0 ->
  forallb is_client_iterate evs = true ->
  Client.st (Client.exec a p evs) = Running /\
  List.length (Client.sent (Client.exec a p evs)) =
    (List.length (Client.sent p) + List.length evs)%nat.
Proof.
  induction evs as [ | ev evs IH]; intros p Hst Hrun Hall.
  - simpl. split; [exact Hst | lia].
  - change (Client.exec a p (ev :: evs))
      with (Client.exec a (Client.step a p ev) evs).
    simpl in Hall. apply andb_prop in Hall as [Hev Hall].
    destruct ev as [ | clock]; [discriminate | ].
    rewrite client_step_running by assumption.
    destruct (IH (Client.body a clock p) eq_refl Hrun Hall) as [H1 H2].
    split; [exact H1 | ].
    rewrite H2. simpl. rewrite length_app. simpl. lia.
Qed.

(** X17: the client never leaves its loop on its own.  As long as no
    signal is delivered it keeps running and has sent exactly one datagram
    per loop iteration. *)
Theorem client_stops_only_on_signal a e evs :
  Client.st (Client.start a e) = Running ->
  forallb is_client_iterate evs = true ->
  Client.st (Client.main a e evs) = Running /\
  List.length (Client.sent (Client.main a e evs)) = List.length evs.
Proof.
  intros Hst Hall. unfold Client.main.
  assert (Hrun : Client.run (Client.start a e) <> 0).
  { unfold Client.start.
    destruct (Z.of_nat (List.length (Client.argv e)) <? 4); simpl; discriminate. }
  assert (Hsent : Client.sent (Client.start a e) = []).
  { unfold Client.start.
    destruct (Z.of_nat (List.length (Client.argv e)) <? 4); reflexivity. }
  destruct (client_exec_no_signal a evs (Client.start a e) Hst Hrun Hall)
    as [H1 H2].
  split; [exact H1 | ]. rewrite H2, Hsent. reflexivity.
Qed.

Lemma client_stops_only_on_signal_witness :
  let a := Scenario.le_packed in
  let e := Scenario.client_env a in
  let evs := [Client.Iterate 1000; Client.Iterate 101000; Client.Iterate 201000] in
  (Client.st (Client.start a e) = Running /\
   forallb is_client_iterate evs = true) /\
  Client.st (Client.main a e evs) = Running /\
  List.length (Client.sent (Client.main a e evs)) = 3%nat.
Proof.
  cbv zeta.
  assert (H1 : Client.st (Client.start Scenario.le_packed
                 (Scenario.client_env Scenario.le_packed)) = Running)
    by reflexivity.
  assert (H2 : forallb is_client_iterate
                 [Client.Iterate 1000; Client.Iterate 101000;
                  Client.Iterate 201000] = true) by reflexivity.
  split; [split; assumption | ].
  exact (client_stops_only_on_signal Scenario.le_packed
           (Scenario.client_env Scenario.le_packed) _ H1 H2).
Defined.

(** * Signals delivered inside an iteration *)

(** ** The server *)

Lemma server_handle_sig_stopped p : Server.run p = 0 -> Server.handle_sig p = p.
Proof. destruct p; simpl; intros ->; reflexivity. Qed.

Lemma server_body_handle_sig a r clock p :
  Server.body a r clock (Server.handle_sig p) =
  Server.handle_sig (Server.body a r clock p).
Proof.
  unfold Server.body. simpl.
  destruct (Server.recvfrom (Server.buffer p) r) as [n buf].
  destruct (to_size_t n >=? Z.of_nat (Wire.sizeof_hdr a)); reflexivity.
Qed.

Lemma server_points_exited a evs : forall s c,
  Server.st (snd s) = Exited c -> ServerPoints.exec a s evs = s.
Proof.
  unfold ServerPoints.exec.
  induction evs as [ | ev evs IH]; intros s c Hs; simpl.
  - reflexivity.
  - assert (H : ServerPoints.step a s ev = s)
      by (unfold ServerPoints.step; rewrite Hs; reflexivity).
    rewrite H. apply (IH s c Hs).
Qed.

Lemma server_points_stopped_at_test a evs : forall p,
  Server.st p = Running -> Server.run p = 0 ->
  let q := snd (ServerPoints.exec a (ServerPoints.AtTest, p) evs) in
  Server.recv_log q = Server.recv_log p /\
  Server.buffer q = Server.buffer p /\
  ((1 <= List.length (ServerPoints.advances evs))%nat ->
   Server.st q = Exited 0 /\ Server.fp_closed q = true /\
   Server.sock_closed q = true) /\
  ((List.length (ServerPoints.advances evs) < 1)%nat ->
   Server.st q = Running /\ Server.fp_closed q = Server.fp_closed p /\
   Server.sock_closed q = Server.sock_closed p).
Proof.
  induction evs as [ | ev evs IH]; intros p Hst Hrun; cbv zeta.
  - simpl. repeat split; auto; lia.
  - change (ServerPoints.exec a (ServerPoints.AtTest, p) (ev :: evs))
      with (ServerPoints.exec a
              (ServerPoints.step a (ServerPoints.AtTest, p) ev) evs).
    destruct ev as [ | r clock].
    + assert (Hs : ServerPoints.step a (ServerPoints.AtTest, p)
                     ServerPoints.Signal = (ServerPoints.AtTest, p)).
      { unfold ServerPoints.step. simpl. rewrite Hst.
        rewrite (server_handle_sig_stopped p Hrun). reflexivity. }
      rewrite Hs. apply (IH p Hst Hrun).
    + assert (Hs : ServerPoints.step a (ServerPoints.AtTest, p)
                     (ServerPoints.Advance r clock) =
                   (ServerPoints.AtTest, Server.finish p)).
      { unfold ServerPoints.step. simpl. rewrite Hst, Hrun. reflexivity. }
      rewrite Hs, (server_points_exited a evs _ 0) by reflexivity.
      simpl. repeat split; auto; lia.
Qed.

Lemma server_points_stopped_in_recv a evs : forall p,
  Server.st p = Running -> Server.run p = 0 ->
  let q := snd (ServerPoints.exec a (ServerPoints.InRecv, p) evs) in
  match ServerPoints.advances evs with
  | [] =>
      Server.recv_log q = Server.recv_log p /\
      Server.buffer q = Server.buffer p
  | (r, clock) :: _ =>
      Server.recv_log q = Server.recv_log (Server.body a r clock p) /\
      Server.buffer q = Server.buffer (Server.body a r clock p)
  end /\
  ((2 <= List.length (ServerPoints.advances evs))%nat ->
   Server.st q = Exited 0 /\ Server.fp_closed q = true /\
   Server.sock_closed q = true) /\
  ((List.length (ServerPoints.advances evs) < 2)%nat ->
   Server.st q = Running /\ Server.fp_closed q = Server.fp_closed p /\
   Server.sock_closed q = Server.sock_closed p).
Proof.
  induction evs as [ | ev evs IH]; intros p Hst Hrun; cbv zeta.
  - simpl. repeat split; auto; lia.
  - change (ServerPoints.exec a (ServerPoints.InRecv, p) (ev :: evs))
      with (ServerPoints.exec a
              (ServerPoints.step a (ServerPoints.InRecv, p) ev) evs).
    destruct ev as [ | r clock].
    + assert (Hs : ServerPoints.step a (ServerPoints.InRecv, p)
                     ServerPoints.Signal = (ServerPoints.InRecv, p)).
      { unfold ServerPoints.step. simpl. rewrite Hst.
        rewrite (server_handle_sig_stopped p Hrun). reflexivity. }
      rewrite Hs. apply (IH p Hst Hrun).
    + assert (Hs : ServerPoints.step a (ServerPoints.InRecv, p)
                     (ServerPoints.Advance r clock) =
                   (ServerPoints.AtTest, Server.body a r clock p)).
      { unfold ServerPoints.step. simpl. rewrite Hst. reflexivity. }
      rewrite Hs.
      destruct (server_body_frame a r clock p) as (Hr & _ & Hf & Hk & _).
      destruct (server_points_stopped_at_test a evs (Server.body a r clock p)
                  (server_body_status a r clock p)
                  ltac:(rewrite Hr; exact Hrun)) as (H1 & H2 & H3 & H4).
      cbn [ServerPoints.advances List.length].
      split; [split; assumption | ].
      split.
      * intros Hn. apply H3. lia.
      * intros Hn. destruct H4 as (H5 & H6 & H7); [lia | ].
        rewrite H6, H7. auto.
Qed.

(** X5: shutdown of the server, with the signal delivered at either point
    of the loop.  The signal only clears the run flag.  If it arrives when
    the loop condition is next to be evaluated, no line is written and the
    buffer is not written any more.  If it arrives while [recvfrom] is in
    progress, that receive still completes and is handled like any other
    (a datagram that holds a header is logged), and nothing is received
    after it.  The process leaves the loop at the first evaluation of the
    loop condition after the signal, that is after one advance in the first
    case and two in the second; it then closes the log file and the socket
    and returns 0, and until then it is running with both open. *)
Theorem server_shutdown_at_any_point a pt p evs :
  Server.st p = Running ->
  let q := snd (ServerPoints.exec a (pt, p) (ServerPoints.Signal :: evs)) in
  match pt, ServerPoints.advances evs with
  | ServerPoints.InRecv, (r, clock) :: _ =>
      Server.recv_log q = Server.recv_log (Server.body a r clock p) /\
      Server.buffer q = Server.buffer (Server.body a r clock p)
  | _, _ =>
      Server.recv_log q = Server.recv_log p /\
      Server.buffer q = Server.buffer p
  end /\
  ((ServerPoints.advances_to_exit pt <=
    List.length (ServerPoints.advances evs))%nat ->
   Server.st q = Exited 0 /\ Server.fp_closed q = true /\
   Server.sock_closed q = true) /\
  ((List.length (ServerPoints.advances evs) <
    ServerPoints.advances_to_exit pt)%nat ->
   Server.st q = Running /\ Server.fp_closed q = Server.fp_closed p /\
   Server.sock_closed q = Server.sock_closed p).
Proof.
  intros Hst. cbv zeta.
  change (ServerPoints.exec a (pt, p) (ServerPoints.Signal :: evs))
    with (ServerPoints.exec a (ServerPoints.step a (pt, p) ServerPoints.Signal) evs).
  assert (Hs : ServerPoints.step a (pt, p) ServerPoints.Signal =
               (pt, Server.handle_sig p))
    by (unfold ServerPoints.step; simpl; rewrite Hst; reflexivity).
  rewrite Hs. destruct pt.
  - destruct (server_points_stopped_at_test a evs (Server.handle_sig p)
                Hst eq_refl) as (H1 & H2 & H3 & H4).
    simpl ServerPoints.advances_to_exit.
    split; [destruct (ServerPoints.advances evs); split; assumption | ].
    split; assumption.
  - destruct (server_points_stopped_in_recv a evs (Server.handle_sig p)
                Hst eq_refl) as (H1 & H3 & H4).
    simpl ServerPoints.advances_to_exit.
    split; [ | split; assumption].
    destruct (ServerPoints.advances evs) as [ | [r clock] rest]; [exact H1 | ].
    rewrite server_body_handle_sig in H1. exact H1.
Qed.

Lemma server_shutdown_at_any_point_witness :
  let a := Scenario.le_packed in
  let p := Server.start Scenario.server_env in
  let d := Scenario.first_datagram a in
  let evs := [ServerPoints.Advance (Server.Datagram d) 1500;
              ServerPoints.Advance (Server.Datagram d) 1600;
              ServerPoints.Advance (Server.Datagram d) 1700] in
  let q := snd (ServerPoints.exec a (ServerPoints.InRecv, p)
                  (ServerPoints.Signal :: evs)) in
  let q' := snd (ServerPoints.exec a (ServerPoints.AtTest, p)
                   (ServerPoints.Signal :: evs)) in
  Server.st p = Running /\
  (Server.recv_log q = [Server.record_line 1 500] /\ Server.st q = Exited 0) /\
  (Server.recv_log q' = [] /\ Server.st q' = Exited 0).
Proof.
  cbv zeta.
  assert (H1 : Server.st (Server.start Scenario.server_env) = Running)
    by reflexivity.
  pose proof (server_shutdown_at_any_point Scenario.le_packed ServerPoints.InRecv _
                [ServerPoints.Advance (Server.Datagram
                   (Scenario.first_datagram Scenario.le_packed)) 1500;
                 ServerPoints.Advance (Server.Datagram
                   (Scenario.first_datagram Scenario.le_packed)) 1600;
                 ServerPoints.Advance (Server.Datagram
                   (Scenario.first_datagram Scenario.le_packed)) 1700] H1) as H.
  pose proof (server_shutdown_at_any_point Scenario.le_packed ServerPoints.AtTest _
                [ServerPoints.Advance (Server.Datagram
                   (Scenario.first_datagram Scenario.le_packed)) 1500;
                 ServerPoints.Advance (Server.Datagram
                   (Scenario.first_datagram Scenario.le_packed)) 1600;
                 ServerPoints.Advance (Server.Datagram
                   (Scenario.first_datagram Scenario.le_packed)) 1700] H1) as H'.
  cbv zeta in H, H'. cbn [ServerPoints.advances] in H, H'.
  destruct H as ((Hlog & _) & Hex & _). destruct H' as ((Hlog' & _) & Hex' & _).
  destruct Hex as (Hst & _); [simpl; lia | ].
  destruct Hex' as (Hst' & _); [simpl; lia | ].
  split; [exact H1 | ].
  split; [split; [rewrite Hlog; reflexivity | exact Hst] | ].
  split; [rewrite Hlog'; reflexivity | exact Hst'].
Defined.

(** X18: taking a whole iteration of the server as one step loses nothing.
    A run of whole iterations is the run of the point-by-point model in
    which every iteration takes its two advances; and a signal delivered
    while [recvfrom] is in progress has exactly the effect of a signal
    delivered right after that iteration. *)
Theorem server_iteration_granularity a :
  (forall evs p,
     ServerPoints.exec a (ServerPoints.AtTest, p) (ServerPoints.expand evs) =
     (ServerPoints.AtTest, Server.exec a p evs)) /\
  (forall p r clock evs,
     ServerPoints.exec a (ServerPoints.InRecv, p)
       (ServerPoints.Signal :: ServerPoints.Advance r clock :: evs) =
     ServerPoints.exec a (ServerPoints.InRecv, p)
       (ServerPoints.Advance r clock :: ServerPoints.Signal :: evs)).
Proof.
  split.
  - induction evs as [ | ev evs IH]; intros p.
    + reflexivity.
    + change (Server.exec a p (ev :: evs))
        with (Server.exec a (Server.step a p ev) evs).
      rewrite <- IH. unfold ServerPoints.exec.
      cbn [ServerPoints.expand flat_map]. rewrite fold_left_app. f_equal.
      unfold Server.step, ServerPoints.step.
      destruct ev as [ | r clock]; simpl.
      * destruct (Server.st p); reflexivity.
      * destruct (Server.st p) eqn:Hst; simpl; rewrite ?Hst; [ | reflexivity].
        destruct (Server.run p =? 0); simpl; [reflexivity | ].
        rewrite Hst. reflexivity.
  - intros p r clock evs. unfold ServerPoints.exec. simpl. f_equal.
    unfold ServerPoints.step. simpl.
    destruct (Server.st p) eqn:Hst; simpl; rewrite ?Hst; [ | reflexivity].
    rewrite server_body_handle_sig, server_body_status. reflexivity.
Qed.

(** ** The client *)

Lemma client_handle_sig_stopped p : Client.run p = 0 -> Client.handle_sig p = p.
Proof. destruct p; simpl; intros ->; reflexivity. Qed.

Lemma client_body_handle_sig a clock p :
  Client.body a clock (Client.handle_sig p) =
  Client.handle_sig (Client.body a clock p).
Proof. reflexivity. Qed.

Lemma client_points_exited a evs : forall s c,
  Client.st (snd s) = Exited c -> ClientPoints.exec a s evs = s.
Proof.
  unfold ClientPoints.exec.
  induction evs as [ | ev evs IH]; intros s c Hs; simpl.
  - reflexivity.
  - assert (H : ClientPoints.step a s ev = s)
      by (unfold ClientPoints.step; rewrite Hs; reflexivity).
    rewrite H. apply (IH s c Hs).
Qed.

Lemma client_points_signal_stopped a pt p :
  Client.st p = Running -> Client.run p = 0 ->
  ClientPoints.step a (pt, p) ClientPoints.Signal = (pt, p).
Proof.
  intros Hst Hrun. unfold ClientPoints.step. simpl. rewrite Hst.
  rewrite (client_handle_sig_stopped p Hrun). reflexivity.
Qed.

Lemma client_points_stopped_at_test a evs : forall p,
  Client.st p = Running -> Client.run p = 0 ->
  let q := snd (ClientPoints.exec a (ClientPoints.AtTest, p) evs) in
  Client.sent q = Client.sent p /\
  Client.slept q = Client.slept p /\
  ((1 <= List.length (ClientPoints.advances evs))%nat ->
   Client.st q = Exited 0 /\ Client.hdr_freed q = true /\
   Client.sock_closed q = true) /\
  ((List.length (ClientPoints.advances evs) < 1)%nat ->
   Client.st q = Running /\ Client.hdr_freed q = Client.hdr_freed p /\
   Client.sock_closed q = Client.sock_closed p).
Proof.
  induction evs as [ | ev evs IH]; intros p Hst Hrun; cbv zeta.
  - simpl. repeat split; auto; lia.
  - change (ClientPoints.exec a (ClientPoints.AtTest, p) (ev :: evs))
      with (ClientPoints.exec a
              (ClientPoints.step a (ClientPoints.AtTest, p) ev) evs).
    destruct ev as [ | clock].
    + rewrite client_points_signal_stopped by assumption. apply (IH p Hst Hrun).
    + assert (Hs : ClientPoints.step a (ClientPoints.AtTest, p)
                     (ClientPoints.Advance clock) =
                   (ClientPoints.AtTest, Client.finish p)).
      { unfold ClientPoints.step. simpl. rewrite Hst, Hrun. reflexivity. }
      rewrite Hs, (client_points_exited a evs _ 0) by reflexivity.
      simpl. repeat split; auto; lia.
Qed.

Lemma client_points_stopped_in_sleep a evs : forall p,
  Client.st p = Running -> Client.run p = 0 ->
  let q := snd (ClientPoints.exec a (ClientPoints.InSleep, p) evs) in
  Client.sent q = Client.sent p /\
  Client.slept q = Client.slept p /\
  ((2 <= List.length (ClientPoints.advances evs))%nat ->
   Client.st q = Exited 0 /\ Client.hdr_freed q = true /\
   Client.sock_closed q = true) /\
  ((List.length (ClientPoints.advances evs) < 2)%nat ->
   Client.st q = Running /\ Client.hdr_freed q = Client.hdr_freed p /\
   Client.sock_closed q = Client.sock_closed p).
Proof.
  induction evs as [ | ev evs IH]; intros p Hst Hrun; cbv zeta.
  - simpl. repeat split; auto; lia.
  - change (ClientPoints.exec a (ClientPoints.InSleep, p) (ev :: evs))
      with (ClientPoints.exec a
              (ClientPoints.step a (ClientPoints.InSleep, p) ev) evs).
    destruct ev as [ | clock].
    + rewrite client_points_signal_stopped by assumption. apply (IH p Hst Hrun).
    + assert (Hs : ClientPoints.step a (ClientPoints.InSleep, p)
                     (ClientPoints.Advance clock) = (ClientPoints.AtTest, p)).
      { unfold ClientPoints.step. simpl. rewrite Hst. reflexivity. }
      rewrite Hs.
      destruct (client_points_stopped_at_test a evs p Hst Hrun)
        as (H1 & H2 & H3 & H4).
      cbn [ClientPoints.advances List.length].
      split; [exact H1 | ]. split; [exact H2 | ].
      split; intros Hn; [apply H3 | apply H4]; lia.
Qed.

Lemma client_points_stopped_in_body a evs : forall p,
  Client.st p = Running -> Client.run p = 0 ->
  let q := snd (ClientPoints.exec a (ClientPoints.InBody, p) evs) in
  match ClientPoints.advances evs with
  | [] => Client.sent q = Client.sent p /\ Client.slept q = Client.slept p
  | clock :: _ =>
      Client.sent q = Client.sent (Client.body a clock p) /\
      Client.slept q = Client.slept (Client.body a clock p)
  end /\
  ((3 <= List.length (ClientPoints.advances evs))%nat ->
   Client.st q = Exited 0 /\ Client.hdr_freed q = true /\
   Client.sock_closed q = true) /\
  ((List.length (ClientPoints.advances evs) < 3)%nat ->
   Client.st q = Running /\ Client.hdr_freed q = Client.hdr_freed p /\
   Client.sock_closed q = Client.sock_closed p).
Proof.
  induction evs as [ | ev evs IH]; intros p Hst Hrun; cbv zeta.
  - simpl. repeat split; auto; lia.
  - change (ClientPoints.exec a (ClientPoints.InBody, p) (ev :: evs))
      with (ClientPoints.exec a
              (ClientPoints.step a (ClientPoints.InBody, p) ev) evs).
    destruct ev as [ | clock].
    + rewrite client_points_signal_stopped by assumption. apply (IH p Hst Hrun).
    + assert (Hs : ClientPoints.step a (ClientPoints.InBody, p)
                     (ClientPoints.Advance clock) =
                   (ClientPoints.InSleep, Client.body a clock p)).
      { unfold ClientPoints.step. simpl. rewrite Hst. reflexivity. }
      rewrite Hs.
      destruct (client_points_stopped_in_sleep a evs (Client.body a clock p)
                  eq_refl Hrun) as (H1 & H2 & H3 & H4).
      cbn [ClientPoints.advances List.length].
      split; [split; assumption | ].
      split; intros Hn; [apply H3 | apply H4]; lia.
Qed.

(** X8: shutdown of the client, with the signal delivered at any point of
    the loop.  The signal only clears the run flag.  If it arrives when the
    loop condition is next to be evaluated, or during the sleep, nothing
    more is sent and no further sleep is started.  If it arrives after the
    loop condition has been passed and before the send, the iteration in
    progress still sends its datagram and calls [usleep], and nothing is
    sent after that.  The process leaves the loop at the first evaluation
    of the loop condition after the signal (after one, two or three
    advances), frees the packet buffer, closes the socket and returns 0;
    until then it is running with both in place. *)
Theorem client_shutdown_at_any_point a pt p evs :
  Client.st p = Running ->
  let q := snd (ClientPoints.exec a (pt, p) (ClientPoints.Signal :: evs)) in
  match pt, ClientPoints.advances evs with
  | ClientPoints.InBody, clock :: _ =>
      Client.sent q = Client.sent (Client.body a clock p) /\
      Client.slept q = Client.slept (Client.body a clock p)
  | _, _ => Client.sent q = Client.sent p /\ Client.slept q = Client.slept p
  end /\
  ((ClientPoints.advances_to_exit pt <=
    List.length (ClientPoints.advances evs))%nat ->
   Client.st q = Exited 0 /\ Client.hdr_freed q = true /\
   Client.sock_closed q = true) /\
  ((List.length (ClientPoints.advances evs) <
    ClientPoints.advances_to_exit pt)%nat ->
   Client.st q = Running /\ Client.hdr_freed q = Client.hdr_freed p /\
   Client.sock_closed q = Client.sock_closed p).
Proof.
  intros Hst. cbv zeta.
  change (ClientPoints.exec a (pt, p) (ClientPoints.Signal :: evs))
    with (ClientPoints.exec a (ClientPoints.step a (pt, p) ClientPoints.Signal) evs).
  assert (Hs : ClientPoints.step a (pt, p) ClientPoints.Signal =
               (pt, Client.handle_sig p))
    by (unfold ClientPoints.step; simpl; rewrite Hst; reflexivity).
  rewrite Hs. destruct pt; simpl ClientPoints.advances_to_exit.
  - destruct (client_points_stopped_at_test a evs (Client.handle_sig p)
                Hst eq_refl) as (H1 & H2 & H3 & H4).
    split; [destruct (ClientPoints.advances evs); split; assumption | ].
    split; assumption.
  - destruct (client_points_stopped_in_body a evs (Client.handle_sig p)
                Hst eq_refl) as (H1 & H3 & H4).
    split; [ | split; assumption].
    destruct (ClientPoints.advances evs) as [ | clock rest]; exact H1.
  - destruct (client_points_stopped_in_sleep a evs (Client.handle_sig p)
                Hst eq_refl) as (H1 & H2 & H3 & H4).
    split; [destruct (ClientPoints.advances evs); split; assumption | ].
    split; assumption.
Qed.

Lemma client_shutdown_at_any_point_witness :
  let a := Scenario.le_packed in
  let p := Client.start a (Scenario.client_env a) in
  let evs := [ClientPoints.Advance 1000; ClientPoints.Advance 1001;
              ClientPoints.Advance 1002] in
  let q := snd (ClientPoints.exec a (ClientPoints.InBody, p)
                  (ClientPoints.Signal :: evs)) in
  let q' := snd (ClientPoints.exec a (ClientPoints.InSleep, p)
                   (ClientPoints.Signal :: evs)) in
  Client.st p = Running /\
  (List.length (Client.sent q) = 1%nat /\ Client.slept q = [100000] /\
   Client.st q = Exited 0) /\
  (Client.sent q' = [] /\ Client.slept q' = [] /\ Client.st q' = Exited 0).
Proof.
  cbv zeta.
  assert (H1 : Client.st (Client.start Scenario.le_packed
                 (Scenario.client_env Scenario.le_packed)) = Running)
    by reflexivity.
  pose proof (client_shutdown_at_any_point Scenario.le_packed ClientPoints.InBody _
                [ClientPoints.Advance 1000; ClientPoints.Advance 1001;
                 ClientPoints.Advance 1002] H1) as H.
  pose proof (client_shutdown_at_any_point Scenario.le_packed ClientPoints.InSleep _
                [ClientPoints.Advance 1000; ClientPoints.Advance 1001;
                 ClientPoints.Advance 1002] H1) as H'.
  cbv zeta in H, H'. cbn [ClientPoints.advances] in H, H'.
  destruct H as ((Hsent & Hslept) & Hex & _).
  destruct H' as ((Hsent' & Hslept') & Hex' & _).
  destruct Hex as (Hst & _); [simpl; lia | ].
  destruct Hex' as (Hst' & _); [simpl; lia | ].
  split; [exact H1 | ].
  split.
  - split; [rewrite Hsent; reflexivity | ].
    split; [rewrite Hslept; reflexivity | exact Hst].
  - split; [rewrite Hsent'; reflexivity | ].
    split; [rewrite Hslept'; reflexivity | exact Hst'].
Defined.

(** X19: taking a whole iteration of the client as one step loses nothing.
    A run of whole iterations is the run of the point-by-point model in
    which every iteration takes its three advances; and a signal delivered
    inside the body or during the sleep has exactly the effect of a signal
    delivered right after that advance, so of one delivered when the loop
    condition is next to be evaluated. *)
Theorem client_iteration_granularity a :
  (forall evs p,
     ClientPoints.exec a (ClientPoints.AtTest, p) (ClientPoints.expand evs) =
     (ClientPoints.AtTest, Client.exec a p evs)) /\
  (forall pt p clock evs,
     pt <> ClientPoints.AtTest ->
     ClientPoints.exec a (pt, p)
       (ClientPoints.Signal :: ClientPoints.Advance clock :: evs) =
     ClientPoints.exec a (pt, p)
       (ClientPoints.Advance clock :: ClientPoints.Signal :: evs)).
Proof.
  split.
  - induction evs as [ | ev evs IH]; intros p.
    + reflexivity.
    + change (Client.exec a p (ev :: evs))
        with (Client.exec a (Client.step a p ev) evs).
      rewrite <- IH. unfold ClientPoints.exec.
      cbn [ClientPoints.expand flat_map]. rewrite fold_left_app. f_equal.
      destruct ev as [ | clock]; cbn [fold_left].
      * unfold Client.step, ClientPoints.step. cbn [fst snd].
        destruct (Client.st p); reflexivity.
      * destruct (Client.st p) eqn:Hst.
        -- destruct (Client.run p =? 0) eqn:Hrun.
           ++ assert (H1 : ClientPoints.step a (ClientPoints.AtTest, p)
                             (ClientPoints.Advance clock) =
                           (ClientPoints.AtTest, Client.finish p))
                by (unfold ClientPoints.step; cbn [fst snd];
                    rewrite Hst, Hrun; reflexivity).
              rewrite H1. unfold Client.step. rewrite Hst, Hrun. reflexivity.
           ++ assert (H1 : ClientPoints.step a (ClientPoints.AtTest, p)
                             (ClientPoints.Advance clock) =
                           (ClientPoints.InBody, p))
                by (unfold ClientPoints.step; cbn [fst snd];
                    rewrite Hst, Hrun; reflexivity).
              assert (H2 : ClientPoints.step a (ClientPoints.InBody, p)
                             (ClientPoints.Advance clock) =
                           (ClientPoints.InSleep, Client.body a clock p))
                by (unfold ClientPoints.step; cbn [fst snd];
                    rewrite Hst; reflexivity).
              rewrite H1, H2. unfold Client.step. rewrite Hst, Hrun. reflexivity.
        -- assert (H1 : forall ev, ClientPoints.step a (ClientPoints.AtTest, p) ev =
                                   (ClientPoints.AtTest, p))
             by (intros ev; unfold ClientPoints.step; cbn [fst snd];
                 rewrite Hst; reflexivity).
           rewrite !H1. unfold Client.step. rewrite Hst. reflexivity.
  - intros pt p clock evs Hpt. unfold ClientPoints.exec. cbn [fold_left]. f_equal.
    destruct (Client.st p) eqn:Hst.
    + destruct pt; [contradiction | | ]; unfold ClientPoints.step;
        cbn [fst snd Client.st Client.handle_sig Client.body]; rewrite Hst;
        cbn [fst snd Client.st Client.handle_sig Client.body]; rewrite ?Hst;
        reflexivity.
    + assert (H1 : forall ev, ClientPoints.step a (pt, p) ev = (pt, p))
        by (intros ev; unfold ClientPoints.step; cbn [fst snd];
            rewrite Hst; reflexivity).
      rewrite !H1. reflexivity.
Qed.

Lemma client_iteration_granularity_witness :
  let a := Scenario.le_packed in
  let p := Client.start a (Scenario.client_env a) in
  ClientPoints.InBody <> ClientPoints.AtTest /\
  ClientPoints.exec a (ClientPoints.InBody, p)
    [ClientPoints.Signal; ClientPoints.Advance 1000; ClientPoints.Advance 1001] =
  ClientPoints.exec a (ClientPoints.InBody, p)
    [ClientPoints.Advance 1000; ClientPoints.Signal; ClientPoints.Advance 1001].
Proof.
  cbv zeta.
  assert (H1 : ClientPoints.InBody <> ClientPoints.AtTest) by discriminate.
  split; [exact H1 | ].
  exact (proj2 (client_iteration_granularity Scenario.le_packed)
           ClientPoints.InBody _ 1000 [ClientPoints.Advance 1001] H1).
Defined.

Lemma client_points_advances a clocks : forall pt p,
  Client.st p = Running -> Client.run p <> 0 ->
  List.length (Client.hdr p) = Wire.datagram_size a ->
  let s := ClientPoints.exec a (pt, p) (map ClientPoints.Advance clocks) in
  fst s = ClientPoints.point_after pt clocks /\
  Client.st (snd s) = Running /\ Client.run (snd s) = Client.run p /\
  List.length (Client.hdr (snd s)) = Wire.datagram_size a /\
  map (Wire.get_send_time_us a) (Client.sent (snd s)) =
    map (Wire.get_send_time_us a) (Client.sent p) ++
    map u64 (ClientPoints.body_clocks pt clocks).
Proof.
  induction clocks as [ | c cs IH]; intros pt p Hst Hrun Hlen; cbv zeta.
  - simpl. rewrite app_nil_r. auto.
  - change (ClientPoints.exec a (pt, p) (map ClientPoints.Advance (c :: cs)))
      with (ClientPoints.exec a
              (ClientPoints.step a (pt, p) (ClientPoints.Advance c))
              (map ClientPoints.Advance cs)).
    destruct pt.
    + assert (Hs : ClientPoints.step a (ClientPoints.AtTest, p)
                     (ClientPoints.Advance c) = (ClientPoints.InBody, p)).
      { unfold ClientPoints.step. cbn [fst snd]. rewrite Hst.
        destruct (Z.eqb_spec (Client.run p) 0); [contradiction | reflexivity]. }
      rewrite Hs. apply (IH ClientPoints.InBody p Hst Hrun Hlen).
    + assert (Hs : ClientPoints.step a (ClientPoints.InBody, p)
                     (ClientPoints.Advance c) =
                   (ClientPoints.InSleep, Client.body a c p)).
      { unfold ClientPoints.step. cbn [fst snd]. rewrite Hst. reflexivity. }
      rewrite Hs.
      destruct (IH ClientPoints.InSleep (Client.body a c p) eq_refl Hrun
                  (body_hdr_length a p c Hlen)) as (H1 & H2 & H3 & H4 & H5).
      split; [exact H1 | ]. split; [exact H2 | ]. split; [exact H3 | ].
      split; [exact H4 | ].
      rewrite H5, (body_sent a p c Hlen), map_app, <- app_assoc. f_equal.
      cbn [map app ClientPoints.body_clocks ClientPoints.next]. f_equal.
      apply body_send_time. exact Hlen.
    + assert (Hs : ClientPoints.step a (ClientPoints.InSleep, p)
                     (ClientPoints.Advance c) = (ClientPoints.AtTest, p)).
      { unfold ClientPoints.step. cbn [fst snd]. rewrite Hst. reflexivity. }
      rewrite Hs. apply (IH ClientPoints.AtTest p Hst Hrun Hlen).
Qed.

(** X9: the datagrams of a client run, with the signal delivered at any
    point.  While no signal is delivered the client keeps running and sends
    one datagram each time it runs the body, stamped with the clock reading
    of that moment reduced to 64 bits.  After the signal it sends exactly
    one more datagram if the loop condition had been passed and the body was
    still ahead, stamped with the clock reading at that send, and otherwise
    none. *)
Theorem client_sends_around_signal a pt p clocks evs :
  Client.st p = Running -> Client.run p <> 0 ->
  List.length (Client.hdr p) = Wire.datagram_size a ->
  let q := snd (ClientPoints.exec a (pt, p) (map ClientPoints.Advance clocks)) in
  let q' := snd (ClientPoints.exec a (pt, p)
                   (map ClientPoints.Advance clocks ++ ClientPoints.Signal :: evs)) in
  Client.st q = Running /\
  map (Wire.get_send_time_us a) (Client.sent q) =
    map (Wire.get_send_time_us a) (Client.sent p) ++
    map u64 (ClientPoints.body_clocks pt clocks) /\
  map (Wire.get_send_time_us a) (Client.sent q') =
    map (Wire.get_send_time_us a) (Client.sent p) ++
    map u64 (ClientPoints.body_clocks pt clocks ++
             ClientPoints.in_flight (ClientPoints.point_after pt clocks)
               (ClientPoints.advances evs)).
Proof.
  intros Hst Hrun Hlen. cbv zeta.
  destruct (client_points_advances a clocks pt p Hst Hrun Hlen)
    as (Hpt & Hst1 & _ & Hlen1 & Hsent1).
  split; [exact Hst1 | ]. split; [exact Hsent1 | ].
  unfold ClientPoints.exec in *. rewrite fold_left_app.
  destruct (fold_left (ClientPoints.step a) (map ClientPoints.Advance clocks) (pt, p))
    as [pt1 p1].
  cbn [fst snd] in *. subst pt1.
  cbn [fold_left].
  assert (Hs : ClientPoints.step a (ClientPoints.point_after pt clocks, p1)
                 ClientPoints.Signal =
               (ClientPoints.point_after pt clocks, Client.handle_sig p1))
    by (unfold ClientPoints.step; cbn [fst snd]; rewrite Hst1; reflexivity).
  rewrite Hs, map_app, app_assoc, <- Hsent1.
  destruct (ClientPoints.point_after pt clocks); cbn [ClientPoints.in_flight].
  - destruct (client_points_stopped_at_test a evs (Client.handle_sig p1)
                Hst1 eq_refl) as (H1 & _).
    unfold ClientPoints.exec in H1. rewrite H1. simpl. rewrite app_nil_r.
    reflexivity.
  - destruct (client_points_stopped_in_body a evs (Client.handle_sig p1)
                Hst1 eq_refl) as (H1 & _).
    unfold ClientPoints.exec in H1.
    destruct (ClientPoints.advances evs) as [ | c rest].
    + destruct H1 as [H1 _]. rewrite H1. simpl. rewrite app_nil_r. reflexivity.
    + destruct H1 as [H1 _]. rewrite H1, client_body_handle_sig.
      change (Client.sent (Client.handle_sig (Client.body a c p1)))
        with (Client.sent (Client.body a c p1)).
      rewrite (body_sent a p1 c Hlen1), map_app. f_equal.
      cbn [firstn map]. f_equal. apply body_send_time. exact Hlen1.
  - destruct (client_points_stopped_in_sleep a evs (Client.handle_sig p1)
                Hst1 eq_refl) as (H1 & _).
    unfold ClientPoints.exec in H1. rewrite H1. simpl. rewrite app_nil_r.
    reflexivity.
Qed.

Lemma client_sends_around_signal_witness :
  let a := Scenario.le_aligned in
  let p := Client.start a (Scenario.client_env a) in
  let clocks := [10; 1000; 1001; 100000] in
  let evs := [ClientPoints.Advance 101500; ClientPoints.Signal;
              ClientPoints.Advance 101600; ClientPoints.Advance 101700;
              ClientPoints.Advance 101800] in
  (Client.st p = Running /\ Client.run p <> 0 /\
   List.length (Client.hdr p) = Wire.datagram_size a) /\
  map (Wire.get_send_time_us a)
    (Client.sent (snd (ClientPoints.exec a (ClientPoints.AtTest, p)
       (map ClientPoints.Advance clocks ++ ClientPoints.Signal :: evs)))) =
  [1000; 101500].
Proof.
  cbv zeta.
  assert (H1 : Client.st (Client.start Scenario.le_aligned
                 (Scenario.client_env Scenario.le_aligned)) = Running)
    by reflexivity.
  assert (H2 : Client.run (Client.start Scenario.le_aligned
                 (Scenario.client_env Scenario.le_aligned)) <> 0)
    by (vm_compute; discriminate).
  assert (H3 : List.length (Client.hdr (Client.start Scenario.le_aligned
                 (Scenario.client_env Scenario.le_aligned))) =
               Wire.datagram_size Scenario.le_aligned) by reflexivity.
  pose proof (client_sends_around_signal Scenario.le_aligned ClientPoints.AtTest _
                [10; 1000; 1001; 100000]
                [ClientPoints.Advance 101500; ClientPoints.Signal;
                 ClientPoints.Advance 101600; ClientPoints.Advance 101700;
                 ClientPoints.Advance 101800] H1 H2 H3) as H.
  cbv zeta in H. destruct H as (_ & _ & H).
  split; [repeat split; assumption | ].
  rewrite H. reflexivity.
Defined.
